(** * ShiIuTVmobile: the debounced search screen and the virtualized list

    A shallow embedding of [src/app/search.tsx] (the [SearchScreen]
    component) and of [src/components/CustomScrollView.tsx], with the
    properties of the debounce / search pipeline and of the list presenter.

    Conventions of the embedding:
    - a JavaScript string is its sequence of UTF-16 code units;
    - React state ([useState]) and refs ([useRef]) are fields of a record,
      a setter writes the field;
    - an effect ([useEffect]) is a function that the model runs when one of
      its dependencies changed, its cleanup first;
    - the host (timers, the pending [api.searchVideos] promises, the
      keyboard, the logger) is a record threaded through a small
      state-and-exception monad, so [try / catch / finally] reads as in the
      source;
    - an [async] function is split at its [await]: the part before it runs
      when the function is called, the part after it when the promise
      settles;
    - the screen of [src/app/search.tsx] does not render as it is
      committed: line 90 calls [useCallback], which line 1 does not import,
      and line 70 reads [handleSearch] before its declaration.  The model
      has the render with its fault ([SearchScreen.mount]); what the
      handlers do is stated for the variants of the file whose render
      completes, where [handleSearch] is the callback that React's
      [useCallback] memoizes on [keyword];
    - a component whose render runs a different number of hooks than its
      last one is stopped by React: the early [return] of
      [CustomScrollView] has this effect ([CustomScrollView.rerender]). *)

From Stdlib Require Import List Bool Arith NArith ZArith QArith Lia String Ascii.
From Stdlib Require Import DecimalString DecimalN.
Import ListNotations.

Set Implicit Arguments.

(* ------------------------------------------------------------------ *)
(** ** JavaScript strings *)
(* ------------------------------------------------------------------ *)

Module JS.

Local Open Scope N_scope.

(** A string value: its UTF-16 code units. *)
Definition jsstring := list N.

(** An ASCII literal as a [jsstring]. *)
Fixpoint lit (s : string) : jsstring :=
  match s with
  | EmptyString => []
  | String c s' => N_of_ascii c :: lit s'
  end.

(** ECMAScript [WhiteSpace] and [LineTerminator] code points, the ones
  [String.prototype.trim] strips. *)
Definition isWhiteSpace (c : N) : bool :=
  (c =? 9) || (c =? 10) || (c =? 11) || (c =? 12) || (c =? 13) ||
  (c =? 32) || (c =? 160) || (c =? 5760) ||
  ((8192 <=? c) && (c <=? 8202)) ||
  (c =? 8232) || (c =? 8233) || (c =? 8239) || (c =? 8287) ||
  (c =? 12288) || (c =? 65279).

Fixpoint trimStart (s : jsstring) : jsstring :=
  match s with
  | [] => []
  | c :: s' => if isWhiteSpace c then trimStart s' else s
  end.

Definition trimEnd (s : jsstring) : jsstring := rev (trimStart (rev s)).

(** [s.trim()] *)
Definition trim (s : jsstring) : jsstring := trimEnd (trimStart s).

(** Truthiness of a string: every string but the empty one. *)
Definition truthy (s : jsstring) : bool :=
  match s with [] => false | _ :: _ => true end.

(** Truthiness of a [string | null] value. *)
Definition truthy_opt (o : option jsstring) : bool :=
  match o with None => false | Some s => truthy s end.

(** [s.split(sep)] for a separator of one code unit. *)
Fixpoint split (sep : N) (s : jsstring) : list jsstring :=
  match s with
  | [] => [[]]
  | c :: s' =>
    if c =? sep then [] :: split sep s'
    else match split sep s' with
         | h :: t => (c :: h) :: t
         | [] => [[c]]
         end
  end.

Definition underscore : N := 95.

Definition eqb (a b : jsstring) : bool :=
  if list_eq_dec N.eq_dec a b then true else false.

Definition opt_eqb (a b : option jsstring) : bool :=
  match a, b with
  | None, None => true
  | Some x, Some y => eqb x y
  | _, _ => false
  end.

(** A string is blank when [trim] leaves nothing of it. *)
Definition blank (s : jsstring) : bool := negb (truthy (trim s)).

End JS.

(* ------------------------------------------------------------------ *)
(** ** Host timers: [setTimeout] / [clearTimeout] *)
(* ------------------------------------------------------------------ *)

Module Timers.

Local Open Scope N_scope.

Section Queue.
Variable C : Type.   (* what a timer does when it fires *)

Record Timer := mkTimer { tid : nat; deadline : N; callback : C }.

(** [clearTimeout(id)]: the timer with that id, if still pending, is
    dropped; an id that is not pending is ignored. *)
Definition clear (id : nat) (q : list Timer) : list Timer :=
  filter (fun tm => negb (Nat.eqb (tid tm) id)) q.

(** The next timer to fire by time [target]: the earliest deadline,
    the one set first among equal deadlines ([q] is in the order the
    timers were set). *)
Fixpoint earliest (q : list Timer) : option Timer :=
  match q with
  | [] => None
  | tm :: q' =>
      match earliest q' with
      | Some tm' => if deadline tm' <? deadline tm then Some tm' else Some tm
      | None => Some tm
      end
  end.

Definition next_due (target : N) (q : list Timer) : option Timer :=
  match earliest q with
  | Some tm => if deadline tm <=? target then Some tm else None
  | None => None
  end.
End Queue.

Arguments mkTimer {C}.
Arguments tid {C}.
Arguments deadline {C}.
Arguments callback {C}.

End Timers.

(* ------------------------------------------------------------------ *)
(** ** [src/components/CustomScrollView.tsx] *)
(* ------------------------------------------------------------------ *)

Module CustomScrollView.

Import JS.

(** [useResponsiveLayout()]: the hook is not among the sources; the
    component reads [deviceType] (compared with ['tv'] here and with
    ['mobile'] in the search screen) and [columns] from it. *)
Inductive DeviceType := mobile | tablet | tv.

Definition is_tv (d : DeviceType) : bool :=
  match d with tv => true | _ => false end.

Record ResponsiveConfig := mkConfig {
  deviceType : DeviceType;
  columns : nat
}.

Section Component.

Variable T : Type.      (* the items: [data: any[]] *)
Variable F : Type.      (* a caller-supplied footer component *)

(** [CustomScrollViewProps]; an optional prop that was not passed is
    [None], and [error] is [None] also when [null] was passed.
    [numColumns] is a number, of which the model has the integers, the
    negative ones included.  The two callbacks, [renderItem] and
    [onEndReached], are handed on to the list as they are and are left
    out. *)
Record Props := mkProps {
  data : list T;
  numColumns : option Z;
  loading : option bool;
  loadingMore : option bool;
  error : option jsstring;
  emptyMessage : option jsstring;
  ListFooterComponent : option F
}.

(** The default values of the destructured props (lines 22-32). *)
Definition default_emptyMessage : jsstring :=
  [26242; 26080; 20869; 23481]%N.            (* "暂无内容" *)

Definition loading_of (p : Props) : bool :=
  match loading p with Some b => b | None => false end.

Definition loadingMore_of (p : Props) : bool :=
  match loadingMore p with Some b => b | None => false end.

Definition emptyMessage_of (p : Props) : jsstring :=
  match emptyMessage p with Some m => m | None => default_emptyMessage end.

(** [numColumns || responsiveConfig.columns]: of the integers only [0]
    is falsy. *)
Definition effectiveColumns (cfg : ResponsiveConfig) (p : Props) : Z :=
  match numColumns p with
  | Some n => if Z.eqb n 0 then Z.of_nat (columns cfg) else n
  | None => Z.of_nat (columns cfg)
  end.

(** What [ListEmptyComponent] is (lines 146-155). *)
Inductive EmptyComponent :=
| ActivityIndicator
| EmptyText (msg : jsstring).

(** What [ListFooterComponent] is (line 142). *)
Inductive Footer :=
| CallerFooter (f : F)
| LoadingMoreIndicator.

(** The props handed to [FlashList] (lines 129-156). *)
Record FlashListProps := mkFlashList {
  fl_data : list T;
  fl_numColumns : Z;
  fl_showsVerticalScrollIndicator : bool;
  fl_ListFooterComponent : option Footer;
  fl_ListEmptyComponent : EmptyComponent
}.

(** What the component returns. *)
Inductive Rendered :=
| ErrorView (msg : jsstring)                                (* lines 77-85 *)
| ListView (list : FlashListProps) (scrollToTopButton : bool). (* 127-168 *)

(** What one run of the body returns, for the current value of the
    [showScrollToTop] state.  Whether React accepts the run is the matter
    of [rerender] below. *)
Definition render (cfg : ResponsiveConfig) (showScrollToTop : bool)
    (p : Props) : Rendered :=
  match error p with
  | Some (c :: e) => ErrorView (c :: e)                  (* if (error) *)
  | _ =>
      ListView
        {| fl_data := data p;
           fl_numColumns := effectiveColumns cfg p;
           fl_showsVerticalScrollIndicator := negb (is_tv (deviceType cfg));
           fl_ListFooterComponent :=
             match ListFooterComponent p with
             | Some f => Some (CallerFooter f)
             | None =>
                 if loadingMore_of p then Some LoadingMoreIndicator else None
             end;
           fl_ListEmptyComponent :=
             if loading_of p then ActivityIndicator
             else EmptyText (emptyMessage_of p) |}
        (negb (is_tv (deviceType cfg)) && showScrollToTop)
  end.

(** The hooks one run of the body calls, in order: those of lines 34-68,
    and the [useCallback] of line 88, which the early [return] of line 77
    skips. *)
Inductive HookCall :=
| call_useRef | call_useState | call_useResponsiveLayout
| call_useEffect | call_useCallback.

Definition hooks_before_return : list HookCall :=
  [call_useRef; call_useRef; call_useState; call_useResponsiveLayout;
   call_useEffect; call_useCallback; call_useCallback].

Definition hooks_after_return : list HookCall := [call_useCallback].

Definition hooks_run (p : Props) : list HookCall :=
  match error p with
  | Some (c :: e) => hooks_before_return                   (* if (error) *)
  | _ => hooks_before_return ++ hooks_after_return
  end.

(** A render of a component instance: the first one ([previous] is
    [None]) or one after a render with the props [previous].  React
    throws when a render calls more or fewer hooks than the one before
    it. *)
Inductive RenderOutcome :=
| Renders (r : Rendered)
| ThrowsHookOrder.

Definition rerender (cfg : ResponsiveConfig) (showScrollToTop : bool)
    (previous : option Props) (p : Props) : RenderOutcome :=
  match previous with
  | None => Renders (render cfg showScrollToTop p)
  | Some q =>
      if Nat.eqb (List.length (hooks_run q)) (List.length (hooks_run p))
      then Renders (render cfg showScrollToTop p)
      else ThrowsHookOrder
  end.

(** [FlashList] is the third-party list; of its behaviour the model keeps
    that it shows [ListEmptyComponent] when [data] is empty and the items
    otherwise, item [0] carrying [firstCardRef] (line 94). *)
Inductive ListBody :=
| ShowsEmpty (e : EmptyComponent)
| ShowsItems (items : list T).

Definition FlashList_body (fl : FlashListProps) : ListBody :=
  match fl_data fl with
  | [] => ShowsEmpty (fl_ListEmptyComponent fl)
  | x :: xs => ShowsItems (x :: xs)
  end.

(** Observations on what is on screen. *)
Definition shows_error_only (r : Rendered) (msg : jsstring) : Prop :=
  r = ErrorView msg.

Definition shows_loading_indicator (r : Rendered) : bool :=
  match r with
  | ErrorView _ => false
  | ListView fl _ =>
      match FlashList_body fl with
      | ShowsEmpty ActivityIndicator => true
      | _ => false
      end
  end.

Definition shows_empty_message (r : Rendered) : option jsstring :=
  match r with
  | ErrorView _ => None
  | ListView fl _ =>
      match FlashList_body fl with
      | ShowsEmpty (EmptyText m) => Some m
      | _ => None
      end
  end.


End Component.

(** *** Scrolling *)

(** What a timer of this component does: the arrow function of lines
    71-73. *)
Inductive Callback := FocusFirstCard.

(** A call of [listRef.current.scrollToOffset]. *)
Record ScrollCommand := mkScroll { offset : Q; animated : bool }.

(** The state of a mounted component and of its host: the
    [showScrollToTop] state, the two refs, the timers, and a record of the
    calls made on the list and on the first card. *)
Record Env := mkEnv {
  showScrollToTop : bool;
  listRef : bool;                 (* [listRef.current] is attached *)
  firstCardRef : option nat;      (* [firstCardRef.current]: the index of
                                     the item view it points to *)
  now : N;
  nextTimer : nat;
  timers : list (Timers.Timer Callback);
  scrollCalls : list ScrollCommand;
  focusCalls : list nat           (* the item views [focus()] was called on *)
}.

Definition SCROLL_THRESHOLD : Q := 200.
Definition FOCUS_DELAY : N := 500.

(** [y > 200] on numbers. *)
Definition Qgtb (y x : Q) : bool := negb (Qle_bool y x).

(** [handleScroll] (lines 60-65), [y] being
    [nativeEvent.contentOffset.y]. *)
Definition handleScroll (y : Q) (e : Env) : Env :=
  mkEnv (Qgtb y SCROLL_THRESHOLD) (listRef e) (firstCardRef e) (now e)
        (nextTimer e) (timers e) (scrollCalls e) (focusCalls e).

(** [scrollToTop] (lines 68-74). *)
Definition scrollToTop (e : Env) : Env :=
  mkEnv (showScrollToTop e) (listRef e) (firstCardRef e) (now e)
        (S (nextTimer e))
        (timers e ++
           [Timers.mkTimer (nextTimer e) (now e + FOCUS_DELAY)%N FocusFirstCard])
        (if listRef e
         then scrollCalls e ++ [mkScroll 0 true]
         else scrollCalls e)
        (focusCalls e).

(** The timer callback: [firstCardRef.current?.focus()]. *)
Definition fire (c : Callback) (e : Env) : Env :=
  match c with
  | FocusFirstCard =>
      match firstCardRef e with
      | Some card =>
          mkEnv (showScrollToTop e) (listRef e) (firstCardRef e) (now e)
                (nextTimer e) (timers e) (scrollCalls e)
                (focusCalls e ++ [card])
      | None => e
      end
  end.

Definition set_clock (t : N) (q : list (Timers.Timer Callback)) (e : Env) : Env :=
  mkEnv (showScrollToTop e) (listRef e) (firstCardRef e) t
        (nextTimer e) q (scrollCalls e) (focusCalls e).

(** Time passing: the timers that are due fire, earliest first. *)
Fixpoint run_due (fuel : nat) (target : N) (e : Env) : Env :=
  match fuel with
  | O => e
  | S fuel' =>
      match Timers.next_due target (timers e) with
      | Some tm =>
          run_due fuel' target
            (fire (Timers.callback tm)
               (set_clock (N.max (now e) (Timers.deadline tm))
                  (Timers.clear (Timers.tid tm) (timers e)) e))
      | None => e
      end
  end.

Definition elapse (d : N) (e : Env) : Env :=
  let e' := run_due (List.length (timers e)) (now e + d)%N e in
  set_clock (now e + d)%N (timers e') e'.

(** [renderItemCallback] (lines 88-107): the view of the item at [index]
    carries [firstCardRef] when [index === 0]. *)
Definition carries_firstCardRef (index : nat) : bool := Nat.eqb index 0.

(** The list has mounted the item views of the indices in [window]: the
    refs are attached. *)
Definition mount (window : list nat) (e : Env) : Env :=
  mkEnv (showScrollToTop e) true (find carries_firstCardRef window) (now e)
        (nextTimer e) (timers e) (scrollCalls e) (focusCalls e).

(** The [hardwareBackPress] listener registered on TV (lines 42-54): the
    new state and what the listener returns. *)
Definition hardwareBackPress (e : Env) : Env * bool :=
  if showScrollToTop e then (scrollToTop e, true) else (e, false).


(** *** Keys (line 134) *)

(** Of an item the key extractor reads [id] and [key].  The items are
    [any]; the model covers an [id] that is absent, a string, or a
    non-negative integer, and a [key] that is absent or a string. *)
Inductive IdValue :=
| IdNumber (n : N)
| IdString (s : jsstring).

Record Keyed := mkKeyed {
  item_id : option IdValue;
  item_key : option jsstring
}.

(** [n.toString()] and [`${n}`]: the decimal notation.  This is what
    the code prints for the integers a number holds exactly, those up to
    [Number.MAX_SAFE_INTEGER]; beyond them a number prints the shortest
    digits that read back to it, and the properties below stay in the
    safe range. *)
Definition toString (n : N) : jsstring :=
  lit (NilEmpty.string_of_uint (N.to_uint n)).

Definition id_toString (v : IdValue) : jsstring :=
  match v with
  | IdNumber n => toString n
  | IdString s => s
  end.

(** [`item-${index}`] *)
Definition index_key (index : nat) : jsstring :=
  lit "item-" ++ toString (N.of_nat index).

(** [item.id?.toString() || item.key || `item-${index}`] *)
Definition keyExtractor (item : Keyed) (index : nat) : jsstring :=
  match option_map id_toString (item_id item) with
  | Some (c :: s) => c :: s
  | _ =>
      match item_key item with
      | Some (c :: s) => c :: s
      | _ => index_key index
      end
  end.

(** The keys of one render pass. *)
Fixpoint keys_from (index : nat) (items : list Keyed) : list jsstring :=
  match items with
  | [] => []
  | x :: xs => keyExtractor x index :: keys_from (S index) xs
  end.

(** *** The back button (lines 42-54) *)

(** A press of the hardware back button: the listener exists on TV only;
    the result tells whether the press was consumed. *)
Definition pressBack (cfg : ResponsiveConfig) (e : Env) : Env * bool :=
  if is_tv (deviceType cfg) then hardwareBackPress e else (e, false).

End CustomScrollView.

(* ------------------------------------------------------------------ *)
(** ** [src/app/search.tsx] *)
(* ------------------------------------------------------------------ *)

Module SearchScreen.

Import JS.

Local Open Scope N_scope.

(** [SearchResult] of [@/services/api], which is not among the sources:
    the fields [renderItem] reads (lines 135-145). *)
Record SearchResult := mkResult {
  id : N;
  source : jsstring;
  title : jsstring;
  poster : jsstring;
  year : jsstring;
  source_name : jsstring
}.

(** What [api.searchVideos] resolves to: the code reads [response.results]. *)
Record SearchResponse := mkResponse { response_results : list SearchResult }.

(** What a rejected call carries. *)
Inductive Fault := FaultOf (description : jsstring).

(** How the promise returned by [api.searchVideos] settles. *)
Inductive Settlement :=
| Fulfilled (response : SearchResponse)
| Rejected (err : Fault).

(** *** State *)

(** The [useState] cells and the [debounceTimer] ref of the component
    (lines 29-34). *)
Record Screen := mkScreen {
  keyword : jsstring;
  results : list SearchResult;
  loading : bool;
  error : option jsstring;
  debounceTimer : option nat
}.

(** Modelled from the spec: the message-bus collaborator
    ([@/stores/remoteControlStore], not among the sources), which "exposes
    [lastMessage], a target-page tag, and [clearMessage()]"; [clearCount]
    counts the calls of [clearMessage]. *)
Record Store := mkStore {
  lastMessage : option jsstring;
  targetPage : option jsstring;
  clearCount : nat
}.

(** What a timer of this screen does: the arrow function of lines 55-57,
    which closes over the [keyword] of the render that set it. *)
Inductive Callback := DebounceFire (closure_keyword : jsstring).

(** A call of [api.searchVideos] whose promise has not settled. *)
Record Request := mkRequest { rid : nat; term : jsstring }.

Inductive LogEntry :=
| LogInfo (msg : jsstring) (err : Fault)
| LogDebug (msg : jsstring) (arg : jsstring).

(** The host: clock and timers, the search collaborator (the calls that
    are pending and every call made so far, oldest first), the keyboard
    and the logger. *)
Record Host := mkHost {
  now : N;
  nextTimer : nat;
  timers : list (Timers.Timer Callback);
  nextRequest : nat;
  pending : list Request;
  calls : list jsstring;
  dismissCount : nat;
  logs : list LogEntry
}.

Record Sys := mkSys { screen : Screen; store : Store; host : Host }.

Definition DEBOUNCE_DELAY : N := 500.                          (* line 26 *)

(** "没有找到相关内容" (line 105) *)
Definition NO_RESULTS_MESSAGE : jsstring :=
  [27809; 26377; 25214; 21040; 30456; 20851; 20869; 23481].

(** "搜索失败，请稍后重试。" (line 109) *)
Definition SEARCH_FAILED_MESSAGE : jsstring :=
  [25628; 32034; 22833; 36133; 65292; 35831; 31245; 21518; 37325; 35797; 12290].

(** "输入关键词开始搜索" (line 196) *)
Definition EMPTY_MESSAGE : jsstring :=
  [36755; 20837; 20851; 38190; 35789; 24320; 22987; 25628; 32034].

Definition SEARCH_PAGE : jsstring := lit "search".            (* line 73 *)

(** *** The monad: state, and faults that [try] can catch *)

Inductive Completion (A : Type) :=
| Normal (a : A)
| Thrown (err : Fault).

Arguments Normal {A}.
Arguments Thrown {A}.

Definition M (A : Type) := Sys -> Completion A * Sys.

Definition ret {A} (a : A) : M A := fun s => (Normal a, s).

Definition bind {A B} (m : M A) (k : A -> M B) : M B :=
  fun s =>
    match m s with
    | (Normal a, s') => k a s'
    | (Thrown err, s') => (Thrown err, s')
    end.

Definition throw {A} (err : Fault) : M A := fun s => (Thrown err, s).

Definition gets {A} (f : Sys -> A) : M A := fun s => (Normal (f s), s).

Definition modify (f : Sys -> Sys) : M unit := fun s => (Normal tt, f s).

Declare Scope js_scope.
Delimit Scope js_scope with js.
Notation "x <- m ;; k" := (bind m (fun x => k))
  (at level 61, m at next level, right associativity) : js_scope.
Notation "m ;; k" := (bind m (fun _ => k))
  (at level 61, right associativity) : js_scope.
Local Open Scope js_scope.

(** [try { body } catch (err) { handler } finally { fin }] *)
Definition try_catch_finally (body : M unit) (handler : Fault -> M unit)
    (fin : M unit) : M unit :=
  fun s =>
    let '(c, s1) :=
      match body s with
      | (Normal a, s') => (Normal a, s')
      | (Thrown err, s') => handler err s'
      end in
    match fin s1 with
    | (Normal _, s2) => (c, s2)
    | (Thrown err, s2) => (Thrown err, s2)
    end.

(** The state an action leaves, whatever its completion. *)
Definition exec {A} (m : M A) (s : Sys) : Sys := snd (m s).

(** *** Writing the fields *)

Definition on_screen (f : Screen -> Screen) (s : Sys) : Sys :=
  mkSys (f (screen s)) (store s) (host s).

Definition on_store (f : Store -> Store) (s : Sys) : Sys :=
  mkSys (screen s) (f (store s)) (host s).

Definition on_host (f : Host -> Host) (s : Sys) : Sys :=
  mkSys (screen s) (store s) (f (host s)).

Definition write_keyword (k : jsstring) : M unit :=
  modify (on_screen (fun c =>
    mkScreen k (results c) (loading c) (error c) (debounceTimer c))).

Definition setResults (r : list SearchResult) : M unit :=
  modify (on_screen (fun c =>
    mkScreen (keyword c) r (loading c) (error c) (debounceTimer c))).

Definition setLoading (b : bool) : M unit :=
  modify (on_screen (fun c =>
    mkScreen (keyword c) (results c) b (error c) (debounceTimer c))).

Definition setError (e : option jsstring) : M unit :=
  modify (on_screen (fun c =>
    mkScreen (keyword c) (results c) (loading c) e (debounceTimer c))).

Definition write_debounceTimer (t : option nat) : M unit :=
  modify (on_screen (fun c =>
    mkScreen (keyword c) (results c) (loading c) (error c) t)).

(** *** The host's operations *)

(** [setTimeout(cb, delay)]: a fresh id, never [0] on this platform. *)
Definition setTimeout (cb : Callback) (delay : N) : M nat :=
  fun s =>
    let h := host s in
    (Normal (nextTimer h),
     on_host (fun _ =>
       mkHost (now h) (S (nextTimer h))
              (timers h ++ [Timers.mkTimer (nextTimer h) (now h + delay) cb])
              (nextRequest h) (pending h) (calls h) (dismissCount h) (logs h)) s).

Definition clearTimeout (t : nat) : M unit :=
  modify (on_host (fun h =>
    mkHost (now h) (nextTimer h) (Timers.clear t (timers h))
           (nextRequest h) (pending h) (calls h) (dismissCount h) (logs h))).

(** [Keyboard.dismiss()] *)
Definition Keyboard_dismiss : M unit :=
  modify (on_host (fun h =>
    mkHost (now h) (nextTimer h) (timers h) (nextRequest h) (pending h)
           (calls h) (S (dismissCount h)) (logs h))).

Definition log (e : LogEntry) : M unit :=
  modify (on_host (fun h =>
    mkHost (now h) (nextTimer h) (timers h) (nextRequest h) (pending h)
           (calls h) (dismissCount h) (logs h ++ [e]))).

Definition logger_info (msg : jsstring) (err : Fault) : M unit :=
  log (LogInfo msg err).

Definition logger_debug (msg : jsstring) (arg : jsstring) : M unit :=
  log (LogDebug msg arg).

(** [api.searchVideos(term)]: the call is made and its promise is
    pending; the result is the promise. *)
Definition api_searchVideos (t : jsstring) : M nat :=
  fun s =>
    let h := host s in
    (Normal (nextRequest h),
     on_host (fun _ =>
       mkHost (now h) (nextTimer h) (timers h) (S (nextRequest h))
              (pending h ++ [mkRequest (nextRequest h) t])
              (calls h ++ [t]) (dismissCount h) (logs h)) s).

(** [await promise], once the promise has settled. *)
Definition await (o : Settlement) : M SearchResponse :=
  match o with
  | Fulfilled response => ret response
  | Rejected err => throw err
  end.

(** [clearMessage()] of the store. *)
Definition clearMessage : M unit :=
  modify (on_store (fun st =>
    mkStore None (targetPage st) (S (clearCount st)))).

(** [if (debounceTimer.current)]: [null] and [0] are falsy. *)
Definition truthy_timer (t : option nat) : bool :=
  match t with
  | Some (S _) => true
  | _ => false
  end.

(** *** [handleSearch] (lines 90-114) *)

(** Up to the [await]: the promise awaited, or [None] after the early
    [return].  [closure_keyword] is the [keyword] the callback closed
    over. *)
Definition handleSearch (closure_keyword : jsstring)
    (searchText : option jsstring) : M (option nat) :=
  let term :=
    match searchText with Some t => t | None => closure_keyword end in
  if negb (truthy (trim term)) then
    Keyboard_dismiss ;;
    setLoading false ;;
    ret None
  else
    Keyboard_dismiss ;;
    setError None ;;
    p <- api_searchVideos term ;;
    ret (Some p).

(** From the [await] on, the promise having settled as [o]. *)
Definition handleSearch_resume (o : Settlement) : M unit :=
  try_catch_finally
    (response <- await o ;;
     if (0 <? List.length (response_results response))%nat then
       setResults (response_results response)
     else
       setError (Some NO_RESULTS_MESSAGE) ;;
       setResults [])
    (fun err =>
       setError (Some SEARCH_FAILED_MESSAGE) ;;
       logger_info (lit "Search failed:") err)
    (setLoading false).

(** *** The debounce effect (lines 46-70) *)

(** The cleanup the effect returns (lines 65-69). *)
Definition keywordEffect_cleanup : M unit :=
  t <- gets (fun s => debounceTimer (screen s)) ;;
  if truthy_timer t
  then clearTimeout (match t with Some i => i | None => O end)
  else ret tt.

(** The body of the effect (lines 47-63). *)
Definition keywordEffect : M unit :=
  t <- gets (fun s => debounceTimer (screen s)) ;;
  (if truthy_timer t
   then clearTimeout (match t with Some i => i | None => O end)
   else ret tt) ;;
  k <- gets (fun s => keyword (screen s)) ;;
  if truthy (trim k) then
    setLoading true ;;
    setError None ;;
    i <- setTimeout (DebounceFire k) DEBOUNCE_DELAY ;;
    write_debounceTimer (Some i)
  else
    setResults [] ;;
    setError None ;;
    setLoading false.

(** [setKeyword(t)]: a value equal to the current one leaves the
    component as it is; another one is stored and, [keyword] being a
    dependency of the effect, the cleanup of its last run and then the
    effect run. *)
Definition setKeyword (t : jsstring) : M unit :=
  k <- gets (fun s => keyword (screen s)) ;;
  if eqb k t then ret tt
  else
    write_keyword t ;;
    keywordEffect_cleanup ;;
    keywordEffect.

(** *** [onSearchPress] (lines 116-122) *)

Definition onSearchPress : M unit :=
  t <- gets (fun s => debounceTimer (screen s)) ;;
  (if truthy_timer t
   then clearTimeout (match t with Some i => i | None => O end)
   else ret tt) ;;
  k <- gets (fun s => keyword (screen s)) ;;
  handleSearch k (Some k) ;;
  ret tt.

(** *** The remote-input effect (lines 72-80) *)

Definition remoteInputEffect : M unit :=
  lm <- gets (fun s => lastMessage (store s)) ;;
  tp <- gets (fun s => targetPage (store s)) ;;
  if truthy_opt lm && opt_eqb tp (Some SEARCH_PAGE) then
    let message := match lm with Some m => m | None => [] end in
    logger_debug (lit "Received remote input:") message ;;
    let realMessage := hd [] (split underscore message) in
    setKeyword realMessage ;;
    clearMessage
  else ret tt.

(** The store publishes a message for a page; the effect runs when one of
    its dependencies ([lastMessage], [targetPage]) changed, and once more
    when its own [clearMessage] changed [lastMessage]. *)
Definition storeChanged (msg page : option jsstring) : M unit :=
  lm <- gets (fun s => lastMessage (store s)) ;;
  tp <- gets (fun s => targetPage (store s)) ;;
  modify (on_store (fun st => mkStore msg page (clearCount st))) ;;
  if opt_eqb lm msg && opt_eqb tp page then ret tt
  else
    remoteInputEffect ;;
    lm' <- gets (fun s => lastMessage (store s)) ;;
    if opt_eqb lm' msg then ret tt else remoteInputEffect.

(** *** Time and the promises *)

(** A timer fires. *)
Definition fire (c : Callback) : M unit :=
  match c with
  | DebounceFire k => handleSearch k (Some k) ;; ret tt
  end.

Definition set_clock (t : N) (q : list (Timers.Timer Callback)) : Sys -> Sys :=
  on_host (fun h =>
    mkHost t (nextTimer h) q (nextRequest h) (pending h) (calls h)
           (dismissCount h) (logs h)).

Fixpoint run_due (fuel : nat) (target : N) (s : Sys) : Sys :=
  match fuel with
  | O => s
  | S fuel' =>
      match Timers.next_due target (timers (host s)) with
      | Some tm =>
          run_due fuel' target
            (exec (fire (Timers.callback tm))
               (set_clock (N.max (now (host s)) (Timers.deadline tm))
                  (Timers.clear (Timers.tid tm) (timers (host s))) s))
      | None => s
      end
  end.

(** [d] milliseconds pass: the timers due by then fire, earliest first. *)
Definition elapse (d : N) (s : Sys) : Sys :=
  let s' := run_due (List.length (timers (host s))) (now (host s) + d) s in
  set_clock (now (host s) + d) (timers (host s')) s'.

Definition is_pending (r : nat) (s : Sys) : bool :=
  existsb (fun q => Nat.eqb (rid q) r) (pending (host s)).

Definition forget (r : nat) : Sys -> Sys :=
  on_host (fun h =>
    mkHost (now h) (nextTimer h) (timers h) (nextRequest h)
           (filter (fun q => negb (Nat.eqb (rid q) r)) (pending h))
           (calls h) (dismissCount h) (logs h)).

(** The promise of request [r] settles as [o]: [handleSearch] resumes. *)
Definition settle (r : nat) (o : Settlement) (s : Sys) : Sys :=
  if is_pending r s then exec (handleSearch_resume o) (forget r s) else s.

(** *** What happens to a mounted screen *)

Inductive Event :=
| ChangeText (t : jsstring)          (* [onChangeText] of the input *)
| SubmitEditing                      (* [onSubmitEditing] of the input *)
| SearchPress                        (* [onPress] of the search button *)
| RemoteMessage (msg page : option jsstring)
| Elapse (d : N)
| Settle (r : nat) (o : Settlement).

Definition step (s : Sys) (e : Event) : Sys :=
  match e with
  | ChangeText t => exec (setKeyword t) s
  | SubmitEditing => exec onSearchPress s
  | SearchPress => exec onSearchPress s
  | RemoteMessage msg page => exec (storeChanged msg page) s
  | Elapse d => elapse d s
  | Settle r o => settle r o s
  end.

Definition run (s : Sys) (es : list Event) : Sys := fold_left step es s.

(** *** The first render *)

(** The hooks of React the body calls. *)
Inductive Hook := useState | useRef | useEffect | useCallback.

Definition Hook_eqb (a b : Hook) : bool :=
  match a, b with
  | useState, useState | useRef, useRef
  | useEffect, useEffect | useCallback, useCallback => true
  | _, _ => false
  end.

Definition hook_name (h : Hook) : jsstring :=
  match h with
  | useState => lit "useState"
  | useRef => lit "useRef"
  | useEffect => lit "useEffect"
  | useCallback => lit "useCallback"
  end.

(** What a run of the body does with its identifiers, as far as a fault
    can come of it: it reads a hook, it reads [handleSearch], or it
    initializes [handleSearch] (the [const] of line 90). *)
Inductive BodyStep :=
| ReadHook (h : Hook)
| ReadHandleSearch
| InitHandleSearch.

(** A variant of the file: the hooks its first line imports from React,
    whether the declaration of [handleSearch] stands before the effect
    that names it, and whether the build keeps [const] block-scoped
    (a read before the initialization then throws) or compiles it to
    [var] (the read then gives [undefined]). *)
Record Variant := mkVariant {
  react_imports : list Hook;
  handleSearch_declared_first : bool;
  block_scoped : bool
}.

(** Lines 29-35: five [useState] and two [useRef]. *)
Definition state_steps : list BodyStep :=
  [ReadHook useState; ReadHook useState; ReadHook useState;
   ReadHook useState; ReadHook useRef; ReadHook useRef; ReadHook useState].

(** The effect of lines 46-70, whose dependency array reads
    [handleSearch], and the effect of lines 72-80. *)
Definition effect_steps : list BodyStep :=
  [ReadHook useEffect; ReadHandleSearch; ReadHook useEffect].

(** Lines 90-114: [const handleSearch = useCallback(...)]. *)
Definition callback_steps : list BodyStep :=
  [ReadHook useCallback; InitHandleSearch].

Definition body_steps (v : Variant) : list BodyStep :=
  if handleSearch_declared_first v
  then state_steps ++ callback_steps ++ effect_steps
  else state_steps ++ effect_steps ++ callback_steps.

Definition ReferenceError (name : jsstring) : Fault :=
  FaultOf (lit "ReferenceError: " ++ name).

(** The first fault of a run, if any: a hook that is not imported is an
    unbound identifier, and so is [handleSearch] read in its dead zone. *)
Fixpoint first_fault (v : Variant) (initialized : bool)
    (steps : list BodyStep) : option Fault :=
  match steps with
  | [] => None
  | ReadHook h :: rest =>
      if existsb (Hook_eqb h) (react_imports v)
      then first_fault v initialized rest
      else Some (ReferenceError (hook_name h))
  | ReadHandleSearch :: rest =>
      if block_scoped v && negb initialized
      then Some (ReferenceError (lit "handleSearch"))
      else first_fault v initialized rest
  | InitHandleSearch :: rest => first_fault v true rest
  end.

Definition render_fault (v : Variant) : option Fault :=
  first_fault v false (body_steps v).

(** The file as it is committed: line 1 imports [useState], [useRef] and
    [useEffect], and the declaration comes after the effect. *)
Definition committed (block_scoped : bool) : Variant :=
  mkVariant [useState; useRef; useEffect] false block_scoped.

(** The file with [useCallback] added to the import and the declaration
    of [handleSearch] moved before the effect. *)
Definition repaired : Variant :=
  mkVariant [useState; useRef; useEffect; useCallback] true true.

(** The initial values of lines 29-34, with an empty store and a host
    whose timer ids start at [1]. *)
Definition initial : Sys :=
  mkSys (mkScreen [] [] false None None)
        (mkStore None None 0)
        (mkHost 0 1 [] 0 [] [] 0 []).

(** After a first render that completed, both effects run once. *)
Definition first_commit : M unit :=
  keywordEffect ;;
  remoteInputEffect.

(** Mounting the screen: the fault of the first render, or the state after
    the first commit.  A state change renders the body again, with the
    same identifiers: a screen that has mounted keeps rendering. *)
Definition mount (v : Variant) : Completion Sys :=
  match render_fault v with
  | Some err => Thrown err
  | None => Normal (exec first_commit initial)
  end.

(** The states of a screen of variant [v]. *)
Inductive reachable (v : Variant) : Sys -> Prop :=
| reachable_mount s : mount v = Normal s -> reachable v s
| reachable_step s e : reachable v s -> reachable v (step s e).

(** What happens to a screen from its mount on. *)
Definition session (v : Variant) (es : list Event) : Completion Sys :=
  match mount v with
  | Normal s => Normal (run s es)
  | Thrown err => Thrown err
  end.

(** *** [renderSearchContent] (lines 150-201) *)

(** What stands below the search bar (lines 186-198). *)
Inductive Content :=
| OwnErrorView (msg : jsstring)
| Presenter (p : CustomScrollView.Props SearchResult unit).

Definition renderSearchContent (c : Screen) : Content :=
  match error c with
  | Some (x :: e) => OwnErrorView (x :: e)                 (* error ? *)
  | _ =>
      Presenter
        (CustomScrollView.mkProps
           (results c) None (Some (loading c)) None
           None                                           (* error={null} *)
           (Some EMPTY_MESSAGE) None)
  end.







(** *** [handleQrPress] (lines 124-133) *)

(** A button of an alert: its text and, for the one with an [onPress],
    the route it pushes. *)
Inductive AlertButton :=
| CancelButton (text : jsstring)
| PushButton (text : jsstring) (route : jsstring).

Record AlertBox := mkAlert {
  alert_title : jsstring;
  alert_message : jsstring;
  alert_buttons : list AlertButton
}.

(** What the handler acts on: the alerts raised, the calls of
    [showRemoteModal] (their page argument) and the routes pushed on the
    router. *)
Record Shell := mkShell {
  alerts : list AlertBox;
  modalCalls : list jsstring;
  routes : list jsstring
}.

(** "远程输入未启用" *)
Definition ALERT_TITLE : jsstring :=
  [36828; 31243; 36755; 20837; 26410; 21551; 29992].

(** "请先在设置页面中启用远程输入功能" *)
Definition ALERT_MESSAGE : jsstring :=
  [35831; 20808; 22312; 35774; 32622; 39029; 38754; 20013; 21551; 29992;
   36828; 31243; 36755; 20837; 21151; 33021].

(** "取消" *)
Definition CANCEL_TEXT : jsstring := [21462; 28040].

(** "去设置" *)
Definition GO_SETTINGS_TEXT : jsstring := [21435; 35774; 32622].

Definition SETTINGS_ROUTE : jsstring := lit "/settings".

Definition handleQrPress (remoteInputEnabled : bool) (u : Shell) : Shell :=
  if negb remoteInputEnabled then
    mkShell
      (alerts u ++
         [mkAlert ALERT_TITLE ALERT_MESSAGE
            [CancelButton CANCEL_TEXT;
             PushButton GO_SETTINGS_TEXT SETTINGS_ROUTE]])
      (modalCalls u) (routes u)
  else
    mkShell (alerts u) (modalCalls u ++ [SEARCH_PAGE]) (routes u).

(** The user presses a button of an alert. *)
Definition pressAlertButton (b : AlertButton) (u : Shell) : Shell :=
  match b with
  | CancelButton _ => u
  | PushButton _ route => mkShell (alerts u) (modalCalls u) (routes u ++ [route])
  end.

(** What [keyExtractor] reads of a search result: its numeric [id]. *)
Definition keyed (r : SearchResult) : CustomScrollView.Keyed :=
  CustomScrollView.mkKeyed (Some (CustomScrollView.IdNumber (id r))) None.

End SearchScreen.

(* ------------------------------------------------------------------ *)
(** ** The Babel configuration (the second part of the file) *)
(* ------------------------------------------------------------------ *)

Module BabelConfig.

Import JS.

Definition REMOVE_CONSOLE : jsstring := lit "transform-remove-console".
Definition REANIMATED : jsstring := lit "react-native-reanimated/plugin".
Definition PRESET_EXPO : jsstring := lit "babel-preset-expo".
Definition PRODUCTION : jsstring := lit "production".

Record Config := mkConfig {
  presets : list jsstring;
  plugins : list jsstring
}.

(** The exported function, for a value of [process.env.NODE_ENV]
    ([None] when it is unset). *)
Definition config (node_env : option jsstring) : Config :=
  let plugins0 : list jsstring := [] in
  let plugins1 :=
    if opt_eqb node_env (Some PRODUCTION)
    then plugins0 ++ [REMOVE_CONSOLE]
    else plugins0 in
  let plugins2 := plugins1 ++ [REANIMATED] in
  mkConfig [PRESET_EXPO] plugins2.

End BabelConfig.

(* ================================================================== *)
(** * Properties *)
(* ================================================================== *)

Import JS SearchScreen.
Local Open Scope N_scope.


(** ** Vocabulary of the properties *)

(** Sample data for the examples. *)
Definition item_A : SearchResult :=
  mkResult 1 (lit "src") (lit "A") (lit "a.jpg") (lit "2001") (lit "Source").

Definition item_B : SearchResult :=
  mkResult 2 (lit "src") (lit "B") (lit "b.jpg") (lit "2002") (lit "Source").


(** The state of a screen whose first render completed (see [mount]). *)
Definition fresh_screen : Sys := exec first_commit initial.














(** At most one timer is pending, and it is the one [debounceTimer]
    refers to. *)
Definition timers_ok (q : list (Timers.Timer Callback)) (t : option nat) : Prop :=
  q = [] \/
  exists tm, q = [tm] /\ t = Some (Timers.tid tm) /\ Timers.tid tm <> O.

(** The error shown is one of the two fixed messages. *)
Definition error_ok (e : option jsstring) : Prop :=
  e = None \/ e = Some NO_RESULTS_MESSAGE \/ e = Some SEARCH_FAILED_MESSAGE.

Definition inv (s : Sys) : Prop :=
  nextTimer (host s) <> O /\
  timers_ok (timers (host s)) (debounceTimer (screen s)) /\
  error_ok (error (screen s)).





(** The first line of the variant imports the four hooks the body
    calls. *)
Definition imports_all (v : Variant) : bool :=
  forallb (fun h => existsb (Hook_eqb h) (react_imports v))
          [useState; useRef; useEffect; useCallback].

(** The largest integer a number holds exactly, [Number.MAX_SAFE_INTEGER]. *)
Definition MAX_SAFE_INTEGER : N := 9007199254740991.

(** An item that has neither a usable [id] nor a usable [key]. *)
Definition unkeyed (x : CustomScrollView.Keyed) : Prop :=
  truthy_opt (option_map CustomScrollView.id_toString
                (CustomScrollView.item_id x)) = false /\
  truthy_opt (CustomScrollView.item_key x) = false.

(** ** Running the handlers symbolically *)

Ltac unfold_js :=
  cbv [step settle forget is_pending set_clock fire
       storeChanged remoteInputEffect onSearchPress setKeyword
       keywordEffect keywordEffect_cleanup handleSearch handleSearch_resume
       try_catch_finally await clearMessage api_searchVideos
       logger_info logger_debug log Keyboard_dismiss clearTimeout setTimeout
       write_debounceTimer setError setLoading setResults write_keyword
       on_screen on_store on_host exec bind ret throw gets modify
       screen store host keyword results loading error debounceTimer
       lastMessage targetPage clearCount
       now nextTimer timers nextRequest pending calls dismissCount logs
       fst snd].

Ltac js_step :=
  unfold_js;
  match goal with
  | H : ?c = _ |- context [if ?c then _ else _] => rewrite H
  | H : ?c = _ |- context [if negb ?c then _ else _] => rewrite H; cbn [negb]
  | |- context [if ?c then _ else _] => destruct c eqn:?
  end.

Ltac js_cases := repeat js_step; unfold_js.

Ltac destruct_sys s :=
  let k := fresh "k" in let r := fresh "r" in let l := fresh "l" in
  let e := fresh "e" in let dt := fresh "dt" in
  let lm := fresh "lm" in let tp := fresh "tp" in let cc := fresh "cc" in
  let nw := fresh "nw" in let nt := fresh "nt" in let q := fresh "q" in
  let nr := fresh "nr" in let pd := fresh "pd" in let cl := fresh "cl" in
  let dc := fresh "dc" in let lg := fresh "lg" in
  destruct s as [[k r l e dt] [lm tp cc] [nw nt q nr pd cl dc lg]].

(** ** Strings *)

Lemma jsstring_eqb_eq a b : eqb a b = true <-> a = b.
Proof.
  unfold eqb. destruct (list_eq_dec N.eq_dec a b); split; congruence.
Qed.

Lemma jsstring_eqb_neq a b : eqb a b = false <-> a <> b.
Proof.
  unfold eqb. destruct (list_eq_dec N.eq_dec a b); split; congruence.
Qed.








Example trim_example : trim (lit "  the  thing ") = lit "the  thing".
Proof. reflexivity. Qed.

Example blank_examples :
  blank [] = true /\ blank (lit " ") = true /\ blank [12288; 9] = true /\
  blank (lit " a ") = false.
Proof. repeat split. Qed.

Example split_example :
  split underscore (lit "dune_17_3") = [lit "dune"; lit "17"; lit "3"] /\
  split underscore (lit "dune") = [lit "dune"] /\
  split underscore (lit "_x") = [[]; lit "x"] /\
  split underscore [] = [[]].
Proof. repeat split. Qed.



Lemma blank_false_truthy s : blank s = false -> truthy (trim s) = true.
Proof. unfold blank. now destruct (truthy (trim s)). Qed.

Lemma blank_true_truthy s : blank s = true -> truthy (trim s) = false.
Proof. unfold blank. now destruct (truthy (trim s)). Qed.

(** ** Invariants of the reachable states *)

Lemma clear_ok q t :
  timers_ok q t ->
  (if truthy_timer t
   then Timers.clear (match t with Some i => i | None => O end) q
   else q) = [].
Proof.
  intros [-> | (tm & -> & -> & Hne)].
  - now destruct (truthy_timer t).
  - simpl. destruct (Timers.tid tm) as [|n] eqn:E; [congruence|].
    simpl. now rewrite Nat.eqb_refl.
Qed.

Lemma timers_ok_fresh i d c : i <> O -> timers_ok [Timers.mkTimer i d c] (Some i).
Proof. intros H. right. eexists. repeat split; simpl; auto. Qed.


Create HintDb js.
#[local] Hint Resolve timers_ok_fresh : js.
#[local] Hint Unfold error_ok : js.

Ltac use_clear Hok :=
  let Hc := fresh "Hc" in
  pose proof (clear_ok Hok) as Hc;
  match type of Hc with
  | context [truthy_timer ?t] =>
      let E := fresh "Etimer" in
      destruct (truthy_timer t) eqn:E; [rewrite ?Hc in * | subst]
  end.

Lemma inv_setKeyword s t : inv s -> inv (exec (setKeyword t) s).
Proof.
  destruct_sys s. intros (Hn & Hok & He); simpl in *.
  assert (Hnil : timers_ok (@nil (Timers.Timer Callback)) dt) by now left.
  use_clear Hok; js_cases; unfold inv; simpl;
    rewrite ?Hc; simpl;
    repeat split; auto with js; try (now left).
Qed.

Lemma inv_onSearchPress s : inv s -> inv (exec onSearchPress s).
Proof.
  destruct_sys s. intros (Hn & Hok & He); simpl in *.
  use_clear Hok; js_cases; unfold inv; simpl;
    repeat split; auto with js; try (now left).
Qed.

Lemma inv_settle s r o : inv s -> inv (settle r o s).
Proof.
  destruct_sys s. intros (Hn & Hok & He); simpl in *.
  destruct o as [[rs] | err]; js_cases; unfold inv; simpl;
    repeat split; auto with js.
Qed.

Lemma inv_clearMessage s : inv s -> inv (exec clearMessage s).
Proof. destruct_sys s. intros H. exact H. Qed.

Lemma inv_remoteInputEffect s : inv s -> inv (exec remoteInputEffect s).
Proof.
  intros H. unfold remoteInputEffect, exec, bind, gets.
  destruct (truthy_opt (lastMessage (store s)) &&
            opt_eqb (targetPage (store s)) (Some SEARCH_PAGE))%bool; [|exact H].
  cbn [logger_debug log modify snd fst].
  match goal with
  | |- context [setKeyword ?t ?s'] =>
      assert (Hk : inv (exec (setKeyword t) s'))
        by (apply inv_setKeyword; destruct_sys s; exact H);
      unfold exec in Hk; destruct (setKeyword t s') as [[[]|err] s2]
  end; simpl in *; [|exact Hk].
  now apply inv_clearMessage in Hk.
Qed.

Lemma inv_storeChanged s msg page : inv s -> inv (exec (storeChanged msg page) s).
Proof.
  intros H. unfold storeChanged, exec, bind, gets.
  cbn [modify snd fst].
  set (s0 := on_store _ s).
  assert (H0 : inv s0) by (destruct_sys s; exact H).
  clearbody s0.
  destruct (opt_eqb (lastMessage (store s)) msg &&
            opt_eqb (targetPage (store s)) page)%bool; [exact H0|].
  pose proof (inv_remoteInputEffect H0) as H1. unfold exec in H1.
  destruct (remoteInputEffect s0) as [[[]|err] s1]; simpl in *; [|exact H1].
  destruct (opt_eqb (lastMessage (store s1)) msg); [exact H1|].
  exact (inv_remoteInputEffect H1).
Qed.

(** A search that starts leaves the timers alone. *)
Lemma handleSearch_timers k t s :
  timers (host (exec (handleSearch k t) s)) = timers (host s) /\
  nextTimer (host (exec (handleSearch k t) s)) = nextTimer (host s) /\
  debounceTimer (screen (exec (handleSearch k t) s)) = debounceTimer (screen s) /\
  now (host (exec (handleSearch k t) s)) = now (host s).
Proof. destruct_sys s. js_cases; simpl; auto. Qed.

Lemma inv_handleSearch k t s : inv s -> inv (exec (handleSearch k t) s).
Proof.
  destruct_sys s. intros (Hn & Hok & He); simpl in *.
  js_cases; unfold inv; simpl; repeat split; auto with js; now left.
Qed.

(** The two shapes of [elapse] on a state of the invariant. *)
Lemma elapse_idle d s :
  timers (host s) = [] ->
  elapse d s = set_clock (now (host s) + d) [] s.
Proof. intros H. unfold elapse. rewrite H. simpl. now rewrite H. Qed.

Lemma elapse_armed d s tm :
  timers (host s) = [tm] ->
  elapse d s =
    if Timers.deadline tm <=? now (host s) + d
    then set_clock (now (host s) + d) []
           (exec (fire (Timers.callback tm))
              (set_clock (N.max (now (host s)) (Timers.deadline tm)) [] s))
    else set_clock (now (host s) + d) [tm] s.
Proof.
  destruct_sys s. destruct tm as [i dl [kw]]. simpl. intros ->.
  unfold elapse. simpl. unfold Timers.next_due. simpl.
  destruct (dl <=? nw + d); [|reflexivity].
  simpl. rewrite Nat.eqb_refl. simpl.
  js_cases; reflexivity.
Qed.

Lemma inv_elapse d s : inv s -> inv (elapse d s).
Proof.
  intros (Hn & Hok & He).
  destruct Hok as [Hq | (tm & Hq & Hdt & Hne)].
  - rewrite (elapse_idle d s Hq). destruct_sys s.
    repeat split; simpl in *; auto. now left.
  - rewrite (elapse_armed d s Hq).
    destruct (Timers.deadline tm <=? now (host s) + d).
    + destruct tm as [i dl [k]].
      destruct_sys s. simpl in *.
      js_cases; unfold inv; simpl; repeat split; auto with js; now left.
    + destruct_sys s. simpl in *. repeat split; simpl; auto.
      right. exists tm. auto.
Qed.

Lemma inv_step s e : inv s -> inv (step s e).
Proof.
  destruct e; simpl; intros H.
  - now apply inv_setKeyword.
  - now apply inv_onSearchPress.
  - now apply inv_onSearchPress.
  - now apply inv_storeChanged.
  - now apply inv_elapse.
  - now apply inv_settle.
Qed.

Example first_commit_changes_nothing : fresh_screen = initial.
Proof. reflexivity. Qed.

Lemma inv_fresh : inv fresh_screen.
Proof.
  rewrite first_commit_changes_nothing.
  repeat split; simpl; auto; now left.
Qed.

(** A mount that completes gives the fresh screen. *)
Lemma mount_normal v s : mount v = Normal s -> s = fresh_screen.
Proof.
  unfold mount. destruct (render_fault v); [discriminate|].
  intros H. now inversion H.
Qed.

Lemma mount_repaired : mount repaired = Normal fresh_screen.
Proof. reflexivity. Qed.

(** The file as committed faults on its first render, in both builds: on
    [handleSearch] read in its dead zone (line 70), or on the unbound
    [useCallback] (line 90). *)
Lemma committed_render_fault tdz :
  render_fault (committed tdz) =
  Some (ReferenceError
          (if tdz then lit "handleSearch" else hook_name useCallback)).
Proof. destruct tdz; reflexivity. Qed.

Lemma committed_session tdz es :
  session (committed tdz) es =
  Thrown (ReferenceError
            (if tdz then lit "handleSearch" else hook_name useCallback)).
Proof.
  unfold session, mount. now rewrite committed_render_fault.
Qed.

Lemma reachable_inv v s : reachable v s -> inv s.
Proof.
  induction 1 as [s Hm|s e _ IH]; [|now apply inv_step].
  rewrite (mount_normal v Hm). exact inv_fresh.
Qed.


Lemma reachable_run v es : forall s, reachable v s -> reachable v (run s es).
Proof.
  induction es as [|e es IH]; simpl; intros s H; [exact H|].
  apply IH. now constructor.
Qed.

Lemma reachable_fresh : reachable repaired fresh_screen.
Proof. apply reachable_mount. exact mount_repaired. Qed.

Lemma reachable_from_fresh es : reachable repaired (run fresh_screen es).
Proof. apply reachable_run. exact reachable_fresh. Qed.





(* ------------------------------------------------------------------ *)
(** ** The settlement of a search *)
(* ------------------------------------------------------------------ *)












(* ------------------------------------------------------------------ *)
(** ** The debounce *)
(* ------------------------------------------------------------------ *)


Lemma setKeyword_blank s t :
  inv s -> t <> keyword (screen s) -> blank t = true ->
  screen (exec (setKeyword t) s) =
    mkScreen t [] false None (debounceTimer (screen s)) /\
  timers (host (exec (setKeyword t) s)) = [] /\
  calls (host (exec (setKeyword t) s)) = calls (host s) /\
  pending (host (exec (setKeyword t) s)) = pending (host s).
Proof.
  intros (Hn & Hok & _) Hne Hb. apply blank_true_truthy in Hb.
  destruct_sys s. simpl in *.
  assert (Hk : eqb k t = false) by (apply jsstring_eqb_neq; congruence).
  assert (Hnil : timers_ok (@nil (Timers.Timer Callback)) dt) by now left.
  use_clear Hok; js_cases; simpl; rewrite ?Hc; simpl; auto.
Qed.



Lemma elapse_quiet d s :
  timers (host s) = [] ->
  calls (host (elapse d s)) = calls (host s) /\
  timers (host (elapse d s)) = [].
Proof.
  intros H. rewrite (elapse_idle d s H). destruct_sys s. simpl. auto.
Qed.






(** C5: on a screen of a variant that renders, a change of the term to
    an empty or whitespace-only string leaves the screen idle (no
    results, no error, not loading), no timer pending, and makes no call,
    then or later.  The screen as committed does not get there: its
    first render throws, in both builds. *)
Theorem blank_term_goes_idle v s t tdz :
  session (committed tdz) [ChangeText t] =
    Thrown (ReferenceError
              (if tdz then lit "handleSearch" else hook_name useCallback)) /\
  (reachable v s ->
   t <> keyword (screen s) -> blank t = true ->
   let s' := step s (ChangeText t) in
   keyword (screen s') = t /\
   results (screen s') = [] /\
   error (screen s') = None /\
   loading (screen s') = false /\
   timers (host s') = [] /\
   calls (host s') = calls (host s) /\
   pending (host s') = pending (host s) /\
   forall d, calls (host (elapse d s')) = calls (host s)).
Proof.
  split; [apply committed_session|].
  intros Hr Hne Hb s'. subst s'.
  change (step s (ChangeText t)) with (exec (setKeyword t) s).
  destruct (setKeyword_blank (reachable_inv Hr) Hne Hb) as (Hs & Hq & Hc & Hp).
  rewrite Hs. cbn [keyword results error loading].
  repeat split; auto.
  intros d. destruct (elapse_quiet d _ Hq) as (Hc' & _).
  now rewrite Hc'.
Qed.

Lemma blank_term_goes_idle_witness :
  let s := run fresh_screen [ChangeText (lit "a"); Elapse 200] in
  let t := lit "  " in
  let s' := step s (ChangeText t) in
  session (committed true) [ChangeText t] =
    Thrown (ReferenceError (lit "handleSearch")) /\
  keyword (screen s') = t /\
  results (screen s') = [] /\
  error (screen s') = None /\
  loading (screen s') = false /\
  timers (host s') = [] /\
  calls (host s') = calls (host s) /\
  pending (host s') = pending (host s) /\
  forall d, calls (host (elapse d s')) = calls (host s).
Proof.
  intros s t.
  destruct (@blank_term_goes_idle repaired s t true) as (H1 & H2).
  split; [exact H1|].
  apply H2; [apply reachable_from_fresh | discriminate | reflexivity].
Defined.

(** C6: on a screen of a variant that renders, the search button and
    the keyboard's submit run the same handler, which leaves no timer
    pending and, without any time passing, starts the search with the
    current term: the call is made at once when the term is not blank
    ([handleSearch] makes none for a blank term), and no later call comes
    from a timer.  The screen as committed does not get there: its first
    render throws, in both builds. *)
Theorem submit_searches_at_once v s tdz :
  session (committed tdz) [SearchPress] =
    Thrown (ReferenceError
              (if tdz then lit "handleSearch" else hook_name useCallback)) /\
  (reachable v s ->
  let s' := step s SearchPress in
  step s SubmitEditing = s' /\
  timers (host s') = [] /\
  now (host s') = now (host s) /\
  (blank (keyword (screen s)) = false ->
     calls (host s') = calls (host s) ++ [keyword (screen s)] /\
     pending (host s') =
       pending (host s) ++
       [mkRequest (nextRequest (host s)) (keyword (screen s))]) /\
  (blank (keyword (screen s)) = true ->
     calls (host s') = calls (host s) /\ loading (screen s') = false) /\
  forall d, calls (host (elapse d s')) = calls (host s')).
Proof.
  split; [apply committed_session|].
  intros Hr s'. subst s'.
  destruct (reachable_inv Hr) as (Hn & Hok & _).
  change (step s SubmitEditing) with (exec onSearchPress s).
  change (step s SearchPress) with (exec onSearchPress s).
  assert (Hq : timers (host (exec onSearchPress s)) = []).
  { destruct_sys s. simpl in *.
    assert (Hnil : timers_ok (@nil (Timers.Timer Callback)) dt) by now left.
    use_clear Hok; js_cases; simpl; rewrite ?Hc; reflexivity. }
  split; [reflexivity|]. split; [exact Hq|].
  split; [|split; [|split]].
  - destruct_sys s. js_cases; reflexivity.
  - intros Hb. apply blank_false_truthy in Hb.
    destruct_sys s. simpl in Hb. js_cases; simpl; auto.
  - intros Hb. apply blank_true_truthy in Hb.
    destruct_sys s. simpl in Hb. js_cases; simpl; auto.
  - intros d. now destruct (elapse_quiet d _ Hq).
Qed.

Lemma submit_searches_at_once_witness :
  let s := run fresh_screen [ChangeText (lit "dune"); Elapse 100] in
  let s' := step s SearchPress in
  session (committed false) [SearchPress] =
    Thrown (ReferenceError (lit "useCallback")) /\
  step s SubmitEditing = s' /\
  timers (host s') = [] /\
  now (host s') = 100 /\
  calls (host s') = [lit "dune"] /\
  pending (host s') = [mkRequest 0 (lit "dune")] /\
  forall d, calls (host (elapse d s')) = [lit "dune"].
Proof.
  intros s.
  assert (Hr : reachable repaired s) by apply reachable_from_fresh.
  destruct (@submit_searches_at_once repaired s false) as (H0 & H).
  destruct (H Hr) as (H1 & H2 & H3 & H4 & _ & H6).
  destruct H4 as (H4 & H5); [reflexivity|].
  split; [exact H0|].
  split; [exact H1|]. split; [exact H2|]. split; [exact H3|].
  split; [exact H4|]. split; [exact H5 | exact H6].
Defined.

(* ------------------------------------------------------------------ *)
(** ** Remote input *)
(* ------------------------------------------------------------------ *)

Lemma opt_eqb_eq a b : opt_eqb a b = true <-> a = b.
Proof.
  destruct a as [x|], b as [y|]; simpl;
    try (split; [discriminate | congruence]); [|tauto].
  rewrite jsstring_eqb_eq. split; congruence.
Qed.

Lemma opt_eqb_neq a b : opt_eqb a b = false <-> a <> b.
Proof.
  rewrite <- opt_eqb_eq. destruct (opt_eqb a b); split; congruence.
Qed.










(* ------------------------------------------------------------------ *)
(** ** The presenter *)
(* ------------------------------------------------------------------ *)

(** The number of hooks a run calls depends on the truthiness of [error]
    alone. *)
Lemma hooks_run_length (T F : Type) (p : CustomScrollView.Props T F) :
  List.length (CustomScrollView.hooks_run p) =
  if truthy_opt (CustomScrollView.error p) then 7%nat else 8%nat.
Proof.
  unfold CustomScrollView.hooks_run.
  destruct (CustomScrollView.error p) as [[|c e]|]; reflexivity.
Qed.

(** C8, as the code has it: on the first render of a presenter, and on
    a later render whose [error] is truthy exactly when that of the
    render before it was, an [error] that is a non-empty string is all
    that is rendered, whatever the items and [loading]; otherwise (no
    error, or the empty string) an empty list shows the loading indicator
    when [loading] is true and the empty message when it is false.
    (A render whose [error] went from falsy to truthy or back is left
    aside here: React stops it, see [CustomScrollView.rerender].) *)
Theorem presenter_branches (T F : Type)
    (cfg : CustomScrollView.ResponsiveConfig) (top : bool)
    (previous : option (CustomScrollView.Props T F))
    (p : CustomScrollView.Props T F) :
  (forall q, previous = Some q ->
     truthy_opt (CustomScrollView.error q) =
     truthy_opt (CustomScrollView.error p)) ->
  let render := @CustomScrollView.render T F cfg top in
  CustomScrollView.rerender cfg top previous p =
    CustomScrollView.Renders (render p) /\
  (forall m, CustomScrollView.error p = Some m -> m <> [] ->
     render p = CustomScrollView.ErrorView T F m) /\
  (truthy_opt (CustomScrollView.error p) = false ->
   CustomScrollView.data p = [] ->
     (CustomScrollView.loading_of p = true ->
        CustomScrollView.shows_loading_indicator (render p) = true /\
        CustomScrollView.shows_empty_message (render p) = None) /\
     (CustomScrollView.loading_of p = false ->
        CustomScrollView.shows_loading_indicator (render p) = false /\
        CustomScrollView.shows_empty_message (render p) =
          Some (CustomScrollView.emptyMessage_of p) /\
        forall m, CustomScrollView.emptyMessage p = Some m ->
                  CustomScrollView.shows_empty_message (render p) = Some m)).
Proof.
  intros Hprev render. subst render.
  split.
  { unfold CustomScrollView.rerender.
    destruct previous as [q|]; [|reflexivity].
    rewrite (hooks_run_length q), (hooks_run_length p), (Hprev q eq_refl).
    now rewrite Nat.eqb_refl. }
  clear Hprev previous.
  destruct p as [d nc l lm e em f]. simpl. split.
  - intros m -> Hm. unfold CustomScrollView.render. simpl.
    destruct m; [congruence | reflexivity].
  - intros He ->. unfold CustomScrollView.render. simpl.
    split; intros Hl.
    + destruct e as [[|c e']|]; try discriminate;
        unfold CustomScrollView.shows_loading_indicator,
               CustomScrollView.shows_empty_message,
               CustomScrollView.FlashList_body; simpl;
        unfold CustomScrollView.loading_of in *; simpl in *;
        rewrite Hl; auto.
    + destruct e as [[|c e']|]; try discriminate;
        unfold CustomScrollView.shows_loading_indicator,
               CustomScrollView.shows_empty_message,
               CustomScrollView.FlashList_body; simpl;
        unfold CustomScrollView.loading_of,
               CustomScrollView.emptyMessage_of in *; simpl in *;
        rewrite Hl; repeat split; auto; intros m ->; reflexivity.
Qed.

Lemma presenter_branches_witness :
  let cfg := CustomScrollView.mkConfig CustomScrollView.mobile 3 in
  let failed : CustomScrollView.Props nat unit :=
    CustomScrollView.mkProps [1; 2]%nat None (Some true) None
      (Some (lit "boom")) None None in
  let busy : CustomScrollView.Props nat unit :=
    CustomScrollView.mkProps [] None (Some true) None None
      (Some (lit "nothing here")) None in
  let idle : CustomScrollView.Props nat unit :=
    CustomScrollView.mkProps [] None (Some false) None None
      (Some (lit "nothing here")) None in
  CustomScrollView.rerender cfg false None failed =
    CustomScrollView.Renders
      (CustomScrollView.ErrorView nat unit (lit "boom")) /\
  CustomScrollView.rerender cfg false (Some busy) idle =
    CustomScrollView.Renders (CustomScrollView.render cfg false idle) /\
  CustomScrollView.shows_loading_indicator
    (CustomScrollView.render cfg false busy) = true /\
  CustomScrollView.shows_empty_message
    (CustomScrollView.render cfg false idle) = Some (lit "nothing here").
Proof.
  intros cfg failed busy idle.
  destruct (@presenter_branches nat unit cfg false None failed)
    as (H0 & H1 & _); [discriminate|].
  destruct (@presenter_branches nat unit cfg false None busy)
    as (_ & _ & H2); [discriminate|].
  destruct (@presenter_branches nat unit cfg false (Some busy) idle)
    as (H4 & _ & H3);
    [intros q Hq; inversion Hq; reflexivity|].
  cbv zeta in H0, H1, H2, H3, H4.
  split; [|split; [exact H4|split]].
  - rewrite H0. f_equal.
    all: try (apply H1; [reflexivity | discriminate]).
  - apply H2; reflexivity.
  - apply H3; reflexivity.
Defined.

(** C8, as stated, fails: the empty string is a non-null [error], and
    with it the list is rendered, here with its loading indicator. *)
Lemma empty_error_is_not_rendered :
  let cfg := CustomScrollView.mkConfig CustomScrollView.mobile 3 in
  let p : CustomScrollView.Props nat unit :=
    CustomScrollView.mkProps [] None (Some true) None (Some []) None None in
  CustomScrollView.error p <> None /\
  CustomScrollView.render cfg false p <> CustomScrollView.ErrorView nat unit [] /\
  CustomScrollView.shows_loading_indicator
    (CustomScrollView.render cfg false p) = true.
Proof.
  vm_compute. repeat split; discriminate.
Qed.

(* ------------------------------------------------------------------ *)
(** ** Scroll to top *)
(* ------------------------------------------------------------------ *)

Lemma Qgtb_lt y x : CustomScrollView.Qgtb y x = true <-> (x < y)%Q.
Proof.
  unfold CustomScrollView.Qgtb. rewrite negb_true_iff.
  split.
  - intros H. apply Qnot_le_lt. intros Hle.
    apply Qle_bool_iff in Hle. congruence.
  - intros H. destruct (Qle_bool y x) eqn:E; [|reflexivity].
    apply Qle_bool_iff in E. exfalso. exact (Qlt_not_le _ _ H E).
Qed.




(* ------------------------------------------------------------------ *)
(** ** Errors on the search screen *)
(* ------------------------------------------------------------------ *)

(** C10: whatever its state, the search screen hands [error = null] to
    the presenter whenever it renders it, so the presenter never returns
    its error view and, its hooks being the same in every render, is
    never stopped by React; an error that is set is rendered by the
    screen's own view. *)
Theorem presenter_error_branch_unreachable (c : Screen) :
  match renderSearchContent c with
  | Presenter p =>
      truthy_opt (error c) = false /\
      CustomScrollView.error p = None /\
      (forall cfg top m,
         CustomScrollView.render cfg top p <>
         CustomScrollView.ErrorView SearchResult unit m) /\
      (forall cfg top c' p',
         renderSearchContent c' = Presenter p' ->
         CustomScrollView.rerender cfg top (Some p') p =
         CustomScrollView.Renders (CustomScrollView.render cfg top p))
  | OwnErrorView m => error c = Some m /\ m <> []
  end.
Proof.
  unfold renderSearchContent.
  destruct (error c) as [[|x e]|] eqn:E; simpl.
  - repeat split; try discriminate.
    intros cfg top c' p'.
    destruct (error c') as [[|x' e']|]; intros H; inversion H; reflexivity.
  - split; [reflexivity | discriminate].
  - repeat split; try discriminate.
    intros cfg top c' p'.
    destruct (error c') as [[|x' e']|]; intros H; inversion H; reflexivity.
Qed.

(* ------------------------------------------------------------------ *)
(** ** Further properties of the search screen *)
(* ------------------------------------------------------------------ *)




























(** ** Further properties of the remote input *)



Lemma setKeyword_store t s : store (exec (setKeyword t) s) = store s.
Proof. destruct_sys s. js_cases; reflexivity. Qed.







(* ------------------------------------------------------------------ *)
(** ** Further properties of the list *)
(* ------------------------------------------------------------------ *)

Lemma NoDup_map_of_inj {A B} (f : A -> B) (l : list A) :
  (forall x y, f x = f y -> x = y) -> NoDup l -> NoDup (map f l).
Proof.
  intros Hf. induction 1 as [|x l Hx _ IH]; simpl; constructor; [|exact IH].
  intros Hin. apply in_map_iff in Hin. destruct Hin as (y & Hy & Hin).
  apply Hf in Hy. now subst.
Qed.

Lemma lit_inj a b : lit a = lit b -> a = b.
Proof.
  revert b. induction a as [|c a IH]; intros [|d b] H; simpl in H;
    try discriminate; [reflexivity|].
  inversion H as [[Hc Ht]]. f_equal; [|now apply IH].
  rewrite <- (ascii_N_embedding c), <- (ascii_N_embedding d). now rewrite Hc.
Qed.

Lemma toString_inj n m :
  CustomScrollView.toString n = CustomScrollView.toString m -> n = m.
Proof.
  unfold CustomScrollView.toString. intros H. apply lit_inj in H.
  apply DecimalN.Unsigned.to_uint_inj.
  assert (Hs : Some (N.to_uint n) = Some (N.to_uint m)).
  { rewrite <- !NilEmpty.usu. now rewrite H. }
  now inversion Hs.
Qed.

Lemma toString_not_empty n : CustomScrollView.toString n <> [].
Proof.
  unfold CustomScrollView.toString.
  assert (Hn : N.to_uint n <> Decimal.Nil).
  { destruct n as [|p]; [discriminate|]. simpl.
    apply DecimalPos.Unsigned.to_uint_nonnil. }
  destruct (N.to_uint n); try congruence; simpl; discriminate.
Qed.

Lemma index_key_inj i j :
  CustomScrollView.index_key i = CustomScrollView.index_key j -> i = j.
Proof.
  unfold CustomScrollView.index_key. intros H.
  apply app_inv_head in H. apply toString_inj in H. now apply Nat2N.inj.
Qed.

(** X11: for an item whose [id], if a number, is a safe integer, a key
    is never the empty string.  Such an [id] is always the key, [0]
    included; an [id] that is the empty string, like a missing one, gives
    way to [key], and an empty or missing [key] to the position. *)
Theorem keyExtractor_never_empty item index :
  (forall n, CustomScrollView.item_id item = Some (CustomScrollView.IdNumber n) ->
     n <= MAX_SAFE_INTEGER) ->
  CustomScrollView.keyExtractor item index <> [] /\
  (forall n, CustomScrollView.item_id item = Some (CustomScrollView.IdNumber n) ->
     CustomScrollView.keyExtractor item index = CustomScrollView.toString n) /\
  (forall s, CustomScrollView.item_id item = Some (CustomScrollView.IdString s) ->
     s <> [] -> CustomScrollView.keyExtractor item index = s) /\
  (CustomScrollView.item_id item = None \/
   CustomScrollView.item_id item = Some (CustomScrollView.IdString []) ->
     (forall k, CustomScrollView.item_key item = Some k -> k <> [] ->
        CustomScrollView.keyExtractor item index = k) /\
     (CustomScrollView.item_key item = None \/
      CustomScrollView.item_key item = Some [] ->
        CustomScrollView.keyExtractor item index =
        CustomScrollView.index_key index)).
Proof.
  intros _.
  destruct item as [i k]. unfold CustomScrollView.keyExtractor. simpl.
  split; [|split; [|split]].
  - destruct i as [[n|[|c s]]|]; simpl;
      try (pose proof (toString_not_empty n) as Hn;
           destruct (CustomScrollView.toString n); [congruence|discriminate]);
      try discriminate;
      destruct k as [[|c k]|]; discriminate.
  - intros n ->. simpl. pose proof (toString_not_empty n) as Hn.
    destruct (CustomScrollView.toString n); [congruence|reflexivity].
  - intros s -> Hs. simpl. destruct s; [congruence|reflexivity].
  - intros Hi. assert (Hskip : forall A (x y : A),
        match option_map CustomScrollView.id_toString i with
        | Some [] => y | Some (c :: s) => x | None => y end = y).
    { intros A x y. destruct Hi as [-> | ->]; reflexivity. }
    split.
    + intros k' -> Hk. destruct Hi as [-> | ->]; simpl;
        (destruct k'; [congruence|reflexivity]).
    + intros Hk. destruct Hi as [-> | ->], Hk as [-> | ->]; reflexivity.
Qed.

Lemma keyExtractor_never_empty_witness :
  let zero := CustomScrollView.mkKeyed
                (Some (CustomScrollView.IdNumber 0)) (Some (lit "k")) in
  let blank_id := CustomScrollView.mkKeyed
                    (Some (CustomScrollView.IdString [])) (Some (lit "k")) in
  let bare := CustomScrollView.mkKeyed None None in
  CustomScrollView.keyExtractor zero 7 = lit "0" /\
  CustomScrollView.keyExtractor blank_id 7 = lit "k" /\
  CustomScrollView.keyExtractor bare 7 = lit "item-7".
Proof.
  intros zero blank_id bare.
  destruct (@keyExtractor_never_empty zero 7) as (_ & H1 & _);
    [intros n Hn; inversion Hn; subst; discriminate|].
  destruct (@keyExtractor_never_empty blank_id 7) as (_ & _ & _ & H2);
    [discriminate|].
  destruct (@keyExtractor_never_empty bare 7) as (_ & _ & _ & H3);
    [discriminate|].
  split; [apply (H1 0%N); reflexivity|]. split.
  - destruct H2 as (H2 & _); [now right|].
    apply H2; [reflexivity | discriminate].
  - destruct H3 as (_ & H3); [now left|]. apply H3. now left.
Defined.

Lemma keys_from_keyed rs : forall start,
  CustomScrollView.keys_from start (map keyed rs) =
  map (fun r => CustomScrollView.toString (id r)) rs.
Proof.
  induction rs as [|r rs IH]; intros start; simpl; [reflexivity|].
  rewrite IH. f_equal.
  unfold CustomScrollView.keyExtractor, keyed. simpl.
  pose proof (toString_not_empty (id r)) as Hn.
  destruct (CustomScrollView.toString (id r)); [congruence|reflexivity].
Qed.

(** X12: search results whose ids are distinct (safe) integers get
    distinct keys, [id] being rendered in decimal; equal ids get equal
    keys, wherever the results stand in the list. *)
Theorem search_result_keys_distinct rs start :
  Forall (fun r => id r <= MAX_SAFE_INTEGER) rs ->
  (NoDup (map id rs) <->
   NoDup (CustomScrollView.keys_from start (map keyed rs))).
Proof.
  intros _. rewrite keys_from_keyed.
  rewrite <- (map_map id CustomScrollView.toString).
  split.
  - apply NoDup_map_of_inj. intros n m. apply toString_inj.
  - apply NoDup_map_inv.
Qed.

Lemma search_result_keys_distinct_witness :
  NoDup (map id [item_A; item_B]) <->
  NoDup (CustomScrollView.keys_from 0 (map keyed [item_A; item_B])).
Proof.
  apply (@search_result_keys_distinct [item_A; item_B] 0%nat).
  repeat constructor; vm_compute; discriminate.
Defined.

Lemma keys_from_unkeyed items : forall start,
  Forall unkeyed items ->
  CustomScrollView.keys_from start items =
  map CustomScrollView.index_key (seq start (List.length items)).
Proof.
  induction items as [|x xs IH]; intros start H; simpl; [reflexivity|].
  inversion H as [|? ? (Hi & Hk) Hxs]; subst.
  rewrite (IH (S start) Hxs). f_equal.
  unfold CustomScrollView.keyExtractor.
  destruct (option_map CustomScrollView.id_toString
              (CustomScrollView.item_id x)) as [[|c s]|];
    try discriminate;
    destruct (CustomScrollView.item_key x) as [[|c' k]|];
    try discriminate; reflexivity.
Qed.

(** X13: items that have neither a usable [id] nor a usable [key] are
    keyed by their position, each by a key of its own. *)
Theorem positional_keys_distinct items start :
  Forall unkeyed items ->
  NoDup (CustomScrollView.keys_from start items) /\
  forall n x, nth_error items n = Some x ->
    CustomScrollView.keyExtractor x (start + n) =
    CustomScrollView.index_key (start + n).
Proof.
  intros H. split.
  - rewrite (keys_from_unkeyed start H).
    apply NoDup_map_of_inj; [|apply seq_NoDup].
    intros i j. apply index_key_inj.
  - intros n x Hn. apply nth_error_In in Hn.
    destruct (proj1 (Forall_forall _ _) H x Hn) as (Hi & Hk).
    unfold CustomScrollView.keyExtractor.
    destruct (option_map CustomScrollView.id_toString
                (CustomScrollView.item_id x)) as [[|c s]|];
      try discriminate;
      destruct (CustomScrollView.item_key x) as [[|c' k]|];
      try discriminate; reflexivity.
Qed.

Lemma positional_keys_distinct_witness :
  let bare := CustomScrollView.mkKeyed None (Some []) in
  let items := [bare; bare; bare] in
  NoDup (CustomScrollView.keys_from 0 items) /\
  forall n x, nth_error items n = Some x ->
    CustomScrollView.keyExtractor x (0 + n) =
    CustomScrollView.index_key (0 + n).
Proof.
  intros bare items.
  apply (@positional_keys_distinct items 0%nat).
  repeat constructor.
Defined.

(** X14: the hardware back button is consumed exactly on a TV whose
    list was last reported more than 200 units down; the press then
    scrolls to the top, and in every other case leaves the list alone
    and the press to the system. *)
Theorem back_press_scrolls_to_top_on_tv cfg e y :
  let e1 := CustomScrollView.handleScroll y e in
  let consumed :=
    CustomScrollView.is_tv (CustomScrollView.deviceType cfg) &&
    CustomScrollView.Qgtb y CustomScrollView.SCROLL_THRESHOLD in
  (consumed = true <->
     CustomScrollView.deviceType cfg = CustomScrollView.tv /\
     (CustomScrollView.SCROLL_THRESHOLD < y)%Q) /\
  CustomScrollView.pressBack cfg e1 =
    if consumed then (CustomScrollView.scrollToTop e1, true) else (e1, false).
Proof.
  intros e1 consumed. subst e1 consumed. split.
  - rewrite andb_true_iff, Qgtb_lt.
    destruct (CustomScrollView.deviceType cfg); simpl; intuition congruence.
  - unfold CustomScrollView.pressBack, CustomScrollView.hardwareBackPress.
    destruct (CustomScrollView.is_tv (CustomScrollView.deviceType cfg));
      simpl; reflexivity.
Qed.

(** X15: [scrollToTop] on a list that is not mounted asks nothing of the
    list, and its timer focuses nothing when no first item is mounted by
    then: both refs are guarded.  The timer is gone once it fired. *)
Theorem scroll_to_top_without_refs_is_harmless e d :
  CustomScrollView.listRef e = false ->
  CustomScrollView.firstCardRef e = None ->
  CustomScrollView.timers e = [] ->
  let e' := CustomScrollView.elapse d (CustomScrollView.scrollToTop e) in
  CustomScrollView.scrollCalls e' = CustomScrollView.scrollCalls e /\
  CustomScrollView.focusCalls e' = CustomScrollView.focusCalls e /\
  (CustomScrollView.FOCUS_DELAY <= d -> CustomScrollView.timers e' = []).
Proof.
  destruct e as [sh lr fc nw nt q sc fcs]. simpl. intros -> -> ->.
  unfold CustomScrollView.elapse, CustomScrollView.scrollToTop. simpl.
  unfold Timers.next_due. simpl. unfold CustomScrollView.FOCUS_DELAY.
  destruct (N.leb_spec (nw + 500) (nw + d)); simpl.
  - rewrite Nat.eqb_refl. simpl. auto.
  - repeat split; auto. lia.
Qed.

Lemma scroll_to_top_without_refs_is_harmless_witness :
  let e := CustomScrollView.mkEnv true false None 0 1 [] [] [] in
  let e' := CustomScrollView.elapse 600 (CustomScrollView.scrollToTop e) in
  CustomScrollView.scrollCalls e' = [] /\
  CustomScrollView.focusCalls e' = [] /\
  CustomScrollView.timers e' = [].
Proof.
  intros e.
  destruct (@scroll_to_top_without_refs_is_harmless e 600)
    as (H1 & H2 & H3); try reflexivity.
  split; [exact H1|]. split; [exact H2|]. apply H3. discriminate.
Defined.

(** X16: [numColumns] stands in for the columns of the layout whenever
    it is not [0]: given as [0] or not given, the list gets the columns
    of the layout; any other integer, a negative one included, is handed
    to the list as it is.  So the list gets a positive count when the
    layout has a column and [numColumns] is not negative. *)
Theorem effective_columns_fall_back_on_zero (T F : Type)
    (cfg : CustomScrollView.ResponsiveConfig)
    (p : CustomScrollView.Props T F) :
  (CustomScrollView.numColumns p = None \/
   CustomScrollView.numColumns p = Some 0%Z ->
     CustomScrollView.effectiveColumns cfg p =
     Z.of_nat (CustomScrollView.columns cfg)) /\
  (forall n, CustomScrollView.numColumns p = Some n -> n <> 0%Z ->
     CustomScrollView.effectiveColumns cfg p = n) /\
  ((0 < CustomScrollView.columns cfg)%nat ->
   (forall n, CustomScrollView.numColumns p = Some n -> (0 <= n)%Z) ->
   (0 < CustomScrollView.effectiveColumns cfg p)%Z).
Proof.
  unfold CustomScrollView.effectiveColumns.
  destruct (CustomScrollView.numColumns p) as [n|].
  - destruct (Z.eqb_spec n 0) as [E|E].
    + split; [reflexivity|]. split; [intros m Hm; inversion Hm; congruence|].
      intros Hc _. lia.
    + split; [intros [H|H]; [discriminate | inversion H; congruence]|].
      split; [intros m Hm _; now inversion Hm|].
      intros _ Hn. specialize (Hn n eq_refl). lia.
  - split; [reflexivity|]. split; [discriminate|]. intros Hc _. lia.
Qed.

Lemma effective_columns_fall_back_on_zero_witness :
  let cfg := CustomScrollView.mkConfig CustomScrollView.tablet 4 in
  let zero : CustomScrollView.Props nat unit :=
    CustomScrollView.mkProps [] (Some 0%Z) None None None None None in
  let minus : CustomScrollView.Props nat unit :=
    CustomScrollView.mkProps [] (Some (-1)%Z) None None None None None in
  CustomScrollView.effectiveColumns cfg zero = 4%Z /\
  CustomScrollView.effectiveColumns cfg minus = (-1)%Z /\
  (0 < CustomScrollView.effectiveColumns cfg zero)%Z.
Proof.
  intros cfg zero minus.
  destruct (@effective_columns_fall_back_on_zero nat unit cfg zero)
    as (H1 & _ & H3).
  destruct (@effective_columns_fall_back_on_zero nat unit cfg minus)
    as (_ & H2 & _).
  split; [apply H1; now right|].
  split; [apply H2; [reflexivity | discriminate]|].
  apply H3; [simpl; lia|].
  intros n Hn. inversion Hn. lia.
Defined.

(** X17: on the first render of a presenter, and on a later render
    whose [error] is truthy exactly when that of the render before it
    was: with items and without an error the list shows the items,
    whatever [loading] is, neither the loading indicator nor the empty
    message.  Below them stands the caller's footer if there is one, the
    loading-more indicator if there is none and [loadingMore] is set, and
    nothing otherwise. *)
Theorem presenter_items_and_footer (T F : Type)
    (cfg : CustomScrollView.ResponsiveConfig) (top : bool)
    (previous : option (CustomScrollView.Props T F))
    (p : CustomScrollView.Props T F) :
  (forall q, previous = Some q ->
     truthy_opt (CustomScrollView.error q) =
     truthy_opt (CustomScrollView.error p)) ->
  truthy_opt (CustomScrollView.error p) = false ->
  CustomScrollView.data p <> [] ->
  exists fl,
    CustomScrollView.rerender cfg top previous p =
      CustomScrollView.Renders
        (CustomScrollView.ListView fl
           (negb (CustomScrollView.is_tv (CustomScrollView.deviceType cfg))
            && top)) /\
    CustomScrollView.render cfg top p =
      CustomScrollView.ListView fl
        (negb (CustomScrollView.is_tv (CustomScrollView.deviceType cfg)) && top) /\
    CustomScrollView.FlashList_body fl =
      CustomScrollView.ShowsItems (CustomScrollView.data p) /\
    CustomScrollView.shows_loading_indicator
      (CustomScrollView.render cfg top p) = false /\
    CustomScrollView.shows_empty_message
      (CustomScrollView.render cfg top p) = None /\
    CustomScrollView.fl_ListFooterComponent fl =
      match CustomScrollView.ListFooterComponent p with
      | Some f => Some (CustomScrollView.CallerFooter f)
      | None =>
          if CustomScrollView.loadingMore_of p
          then Some (CustomScrollView.LoadingMoreIndicator F)
          else None
      end.
Proof.
  intros Hprev He Hd.
  assert (Hre : CustomScrollView.rerender cfg top previous p =
                CustomScrollView.Renders (CustomScrollView.render cfg top p)).
  { unfold CustomScrollView.rerender.
    destruct previous as [q|]; [|reflexivity].
    rewrite (hooks_run_length q), (hooks_run_length p), (Hprev q eq_refl).
    now rewrite Nat.eqb_refl. }
  rewrite Hre. clear Hre Hprev previous.
  destruct p as [d nc l lm e em f]. simpl in *.
  destruct d as [|x d]; [congruence|].
  unfold CustomScrollView.render. simpl.
  destruct e as [[|c e']|]; try discriminate;
    eexists; (split; [reflexivity|]); (split; [reflexivity|]); simpl; auto.
Qed.

Lemma presenter_items_and_footer_witness :
  let cfg := CustomScrollView.mkConfig CustomScrollView.mobile 3 in
  let p : CustomScrollView.Props nat unit :=
    CustomScrollView.mkProps [1; 2]%nat None (Some true) (Some true)
      None None None in
  exists fl,
    CustomScrollView.rerender cfg true None p =
      CustomScrollView.Renders (CustomScrollView.ListView fl true) /\
    CustomScrollView.render cfg true p = CustomScrollView.ListView fl true /\
    CustomScrollView.FlashList_body fl = CustomScrollView.ShowsItems [1; 2]%nat /\
    CustomScrollView.shows_loading_indicator
      (CustomScrollView.render cfg true p) = false /\
    CustomScrollView.shows_empty_message
      (CustomScrollView.render cfg true p) = None /\
    CustomScrollView.fl_ListFooterComponent fl =
      Some (CustomScrollView.LoadingMoreIndicator unit).
Proof.
  intros cfg p.
  apply (@presenter_items_and_footer nat unit cfg true None p);
    [discriminate | reflexivity | discriminate].
Defined.

(* ------------------------------------------------------------------ *)
(** ** The QR button and the Babel configuration *)
(* ------------------------------------------------------------------ *)

(** X18: [handleQrPress] opens the remote-control modal, for the search
    page, exactly when remote input is enabled.  When it is not, it
    raises one alert with two buttons, opens nothing and goes nowhere;
    of the two buttons only the second navigates, to the settings. *)
Theorem qr_press_opens_modal_only_when_enabled enabled u :
  let u' := handleQrPress enabled u in
  routes u' = routes u /\
  (enabled = true ->
     modalCalls u' = modalCalls u ++ [SEARCH_PAGE] /\ alerts u' = alerts u) /\
  (enabled = false ->
     modalCalls u' = modalCalls u /\
     exists a cancel go,
       alerts u' = alerts u ++ [a] /\
       alert_buttons a = [cancel; go] /\
       pressAlertButton cancel u' = u' /\
       routes (pressAlertButton go u') = routes u ++ [SETTINGS_ROUTE] /\
       modalCalls (pressAlertButton go u') = modalCalls u).
Proof.
  intros u'. subst u'. unfold handleQrPress.
  destruct enabled; simpl.
  - split; [reflexivity|]. split; [auto | discriminate].
  - split; [reflexivity|]. split; [discriminate|].
    intros _. split; [reflexivity|].
    eexists. eexists. eexists.
    split; [reflexivity|]. split; [reflexivity|].
    split; [reflexivity|]. split; reflexivity.
Qed.

Lemma qr_press_opens_modal_only_when_enabled_witness :
  let u := mkShell [] [] [] in
  modalCalls (handleQrPress true u) = [SEARCH_PAGE] /\
  modalCalls (handleQrPress false u) = [] /\
  routes (handleQrPress false u) = [].
Proof.
  intros u.
  destruct (qr_press_opens_modal_only_when_enabled true u) as (_ & H1 & _).
  destruct (qr_press_opens_modal_only_when_enabled false u) as (H2 & _ & H3).
  destruct H1 as (H1 & _); [reflexivity|].
  destruct H3 as (H3 & _); [reflexivity|].
  split; [exact H1|]. split; [exact H3 | exact H2].
Defined.

(** X19: in the Babel configuration the Reanimated plugin is always the
    last plugin, the console-removing plugin is there exactly in
    production, and no plugin is listed twice. *)
Theorem reanimated_plugin_is_last node_env :
  let c := BabelConfig.config node_env in
  last (BabelConfig.plugins c) [] = BabelConfig.REANIMATED /\
  (In BabelConfig.REMOVE_CONSOLE (BabelConfig.plugins c) <->
   node_env = Some BabelConfig.PRODUCTION) /\
  NoDup (BabelConfig.plugins c) /\
  BabelConfig.presets c = [BabelConfig.PRESET_EXPO].
Proof.
  intros c. subst c. unfold BabelConfig.config.
  assert (Hne : BabelConfig.REMOVE_CONSOLE <> BabelConfig.REANIMATED)
    by discriminate.
  destruct (opt_eqb node_env (Some BabelConfig.PRODUCTION)) eqn:E;
    cbn [app BabelConfig.plugins BabelConfig.presets].
  - apply opt_eqb_eq in E.
    split; [reflexivity|]. split; [|split; [|reflexivity]].
    + split; [intros _; exact E | intros _; now left].
    + constructor; [intros [H | []]; congruence|].
      constructor; [intros []|constructor].
  - apply opt_eqb_neq in E.
    split; [reflexivity|]. split; [|split; [|reflexivity]].
    + split; [intros [H | []]; congruence | intros H; congruence].
    + constructor; [intros []|constructor].
Qed.



(* ------------------------------------------------------------------ *)
(** ** Repeated activations of scroll-to-top *)
(* ------------------------------------------------------------------ *)

Lemma earliest_In {C} (q : list (Timers.Timer C)) tm :
  Timers.earliest q = Some tm -> In tm q.
Proof.
  revert tm. induction q as [|x q IH]; intros tm; simpl; [discriminate|].
  destruct (Timers.earliest q) as [tm'|].
  - destruct (Timers.deadline tm' <? Timers.deadline x);
      intros H; inversion H; subst; [right; now apply IH | now left].
  - intros H. inversion H. now left.
Qed.

(** Among timers with one deadline the one set first fires first. *)
Lemma earliest_same_deadline {C} (tm : Timers.Timer C) q :
  Forall (fun x => Timers.deadline x = Timers.deadline tm) q ->
  Timers.earliest (tm :: q) = Some tm.
Proof.
  intros H. simpl. destruct (Timers.earliest q) as [tm'|] eqn:E; [|reflexivity].
  apply earliest_In in E.
  rewrite (proj1 (Forall_forall _ _) H tm' E), N.ltb_irrefl. reflexivity.
Qed.

Lemma clear_head {C} (tm : Timers.Timer C) q :
  ~ In (Timers.tid tm) (map Timers.tid q) ->
  Timers.clear (Timers.tid tm) (tm :: q) = q.
Proof.
  intros Hn. unfold Timers.clear. simpl. rewrite Nat.eqb_refl. simpl.
  induction q as [|x q IH]; simpl; [reflexivity|].
  destruct (Nat.eqb_spec (Timers.tid x) (Timers.tid tm)) as [E|E]; simpl.
  - exfalso. apply Hn. left. exact E.
  - f_equal. apply IH. intros Hin. apply Hn. now right.
Qed.

Lemma run_due_same_deadline q : forall e card target D,
  CustomScrollView.timers e = q ->
  CustomScrollView.firstCardRef e = Some card ->
  NoDup (map Timers.tid q) ->
  Forall (fun x => Timers.deadline x = D) q ->
  D <= target ->
  let e' := CustomScrollView.run_due (List.length q) target e in
  CustomScrollView.timers e' = [] /\
  CustomScrollView.focusCalls e' =
    CustomScrollView.focusCalls e ++ repeat card (List.length q) /\
  CustomScrollView.scrollCalls e' = CustomScrollView.scrollCalls e.
Proof.
  induction q as [|tm q IH]; intros e card target D Hq Hf Hnd Hd Hle; simpl.
  - rewrite app_nil_r. auto.
  - inversion Hd as [|? ? HD Hd']; subst.
    inversion Hnd as [|? ? Hnotin Hnd']; subst.
    unfold Timers.next_due.
    rewrite Hq, (@earliest_same_deadline _ tm q Hd').
    destruct (N.leb_spec (Timers.deadline tm) target) as [_|Hlt]; [|lia].
    rewrite (clear_head tm q Hnotin).
    destruct tm as [i dl []]. destruct e as [sh lr fc nw nt q0 sc fcs].
    simpl in *. subst. simpl.
    match goal with
    | |- context [CustomScrollView.run_due _ _ ?e1] =>
        destruct (IH e1 card target dl eq_refl eq_refl Hnd' Hd' Hle)
          as (H1 & H2 & H3)
    end.
    simpl in H2, H3. rewrite H1, H2, H3, <- app_assoc. auto.
Qed.

Lemma iter_scrollToTop k : forall e,
  let e' := Nat.iter k CustomScrollView.scrollToTop e in
  CustomScrollView.timers e = [] ->
  map Timers.tid (CustomScrollView.timers e') =
    seq (CustomScrollView.nextTimer e) k /\
  Forall (fun x => Timers.deadline x =
                   CustomScrollView.now e + CustomScrollView.FOCUS_DELAY)
         (CustomScrollView.timers e') /\
  CustomScrollView.scrollCalls e' =
    CustomScrollView.scrollCalls e ++
    (if CustomScrollView.listRef e
     then repeat (CustomScrollView.mkScroll 0 true) k else []) /\
  CustomScrollView.focusCalls e' = CustomScrollView.focusCalls e /\
  CustomScrollView.now e' = CustomScrollView.now e /\
  CustomScrollView.nextTimer e' = (CustomScrollView.nextTimer e + k)%nat /\
  CustomScrollView.listRef e' = CustomScrollView.listRef e.
Proof.
  induction k as [|k IH]; intros e e' Hq; subst e'.
  - simpl. rewrite Hq, Nat.add_0_r.
    destruct (CustomScrollView.listRef e); rewrite ?app_nil_r; auto 10.
  - destruct (IH e Hq) as (H1 & H2 & H3 & H4 & H5 & H6 & H7).
    cbn [Nat.iter nat_rect].
    change (nat_rect (fun _ => CustomScrollView.Env) e
              (fun _ => CustomScrollView.scrollToTop) k)
      with (Nat.iter k CustomScrollView.scrollToTop e).
    set (ek := Nat.iter k CustomScrollView.scrollToTop e) in *.
    unfold CustomScrollView.scrollToTop.
    cbn [CustomScrollView.timers CustomScrollView.scrollCalls
         CustomScrollView.focusCalls CustomScrollView.now
         CustomScrollView.nextTimer CustomScrollView.listRef].
    rewrite map_app, H1, H3, H5, H6, H7. cbn [map Timers.tid].
    split; [now rewrite seq_S|].
    split; [apply Forall_app; split; [exact H2|]; repeat constructor|].
    split.
    + destruct (CustomScrollView.listRef e); [|reflexivity].
      rewrite <- app_assoc. f_equal.
      change (CustomScrollView.mkScroll 0 true :: repeat _ k)
        with (repeat (CustomScrollView.mkScroll 0 true) (S k)).
      clear. induction k as [|k IH]; [reflexivity|].
      simpl. f_equal. exact IH.
    + repeat split; auto; lia.
Qed.

(** X21: [scrollToTop] never cancels the timer of an earlier activation:
    [k] activations in a row on a mounted list ask it [k] times to
    scroll to the top, and once the delay has passed [focus] has been
    called [k] times on the first item. *)
Theorem every_activation_focuses k e window d :
  CustomScrollView.listRef e = true ->
  CustomScrollView.timers e = [] ->
  In O window ->
  CustomScrollView.FOCUS_DELAY <= d ->
  let pressed := Nat.iter k CustomScrollView.scrollToTop e in
  let e' := CustomScrollView.elapse d (CustomScrollView.mount window pressed) in
  CustomScrollView.scrollCalls e' =
    CustomScrollView.scrollCalls e ++
    repeat (CustomScrollView.mkScroll 0 true) k /\
  CustomScrollView.focusCalls e' =
    CustomScrollView.focusCalls e ++ repeat O k /\
  CustomScrollView.timers e' = [].
Proof.
  intros Hl Hq Hin Hd pressed e'. subst e'.
  destruct (iter_scrollToTop k e Hq) as (H1 & H2 & H3 & H4 & H5 & H6 & H7).
  fold pressed in H1, H2, H3, H4, H5, H6, H7. rewrite Hl in H3.
  assert (Hf : find CustomScrollView.carries_firstCardRef window = Some O).
  { clear -Hin. induction window as [|x w IH]; [destruct Hin|].
    simpl. destruct x as [|x]; [reflexivity|]. simpl.
    destruct Hin as [Hx|Hin]; [discriminate | auto]. }
  set (m := CustomScrollView.mount window pressed).
  assert (Hlen : List.length (CustomScrollView.timers pressed) = k).
  { rewrite <- (length_map Timers.tid), H1. apply length_seq. }
  assert (Hnd : NoDup (map Timers.tid (CustomScrollView.timers pressed))).
  { rewrite H1. apply seq_NoDup. }
  destruct (@run_due_same_deadline (CustomScrollView.timers pressed) m O
              (CustomScrollView.now m + d)
              (CustomScrollView.now e + CustomScrollView.FOCUS_DELAY))
    as (R1 & R2 & R3); auto.
  { subst m. simpl. rewrite H5. lia. }
  unfold CustomScrollView.elapse.
  change (CustomScrollView.timers m) with (CustomScrollView.timers pressed).
  rewrite Hlen in *. cbv zeta in R1, R2, R3.
  set (r := CustomScrollView.run_due k (CustomScrollView.now m + d) m) in *.
  destruct r as [sh lr fc nw nt q sc fcs].
  cbn [CustomScrollView.timers CustomScrollView.focusCalls
       CustomScrollView.scrollCalls CustomScrollView.set_clock] in *.
  rewrite R1, R2, R3. subst m.
  cbn [CustomScrollView.mount CustomScrollView.focusCalls
       CustomScrollView.scrollCalls].
  rewrite H3, H4. auto.
Qed.

Lemma every_activation_focuses_witness :
  let e := CustomScrollView.mkEnv true true None 0 1 [] [] [] in
  let pressed := Nat.iter 3 CustomScrollView.scrollToTop e in
  let e' := CustomScrollView.elapse 500
              (CustomScrollView.mount [0; 1]%nat pressed) in
  CustomScrollView.scrollCalls e' =
    repeat (CustomScrollView.mkScroll 0 true) 3 /\
  CustomScrollView.focusCalls e' = repeat O 3 /\
  CustomScrollView.timers e' = [].
Proof.
  intros e.
  apply (@every_activation_focuses 3 e [0; 1]%nat 500);
    [reflexivity | reflexivity | now left | discriminate].
Defined.

(* ------------------------------------------------------------------ *)
(** ** The faults of the two renders *)
(* ------------------------------------------------------------------ *)

(** X22: the screen as committed does not render, in either build: the
    first run of its body throws a [ReferenceError], on [handleSearch]
    read before its declaration (line 70) where [const] is block-scoped,
    on the unbound [useCallback] (line 90) where it is not.  No event is
    ever handled and no state reached.  A variant renders exactly when
    its first line imports the four hooks and, in a block-scoped build,
    the declaration of [handleSearch] stands before the effect. *)
Theorem committed_screen_never_renders tdz es :
  mount (committed tdz) =
    Thrown (ReferenceError
              (if tdz then lit "handleSearch" else hook_name useCallback)) /\
  session (committed tdz) es = mount (committed tdz) /\
  (forall s, ~ reachable (committed tdz) s) /\
  (forall v,
     render_fault v = None <->
     imports_all v = true /\
     (block_scoped v = true -> handleSearch_declared_first v = true)).
Proof.
  assert (Hm : mount (committed tdz) =
               Thrown (ReferenceError
                         (if tdz then lit "handleSearch"
                          else hook_name useCallback))).
  { unfold mount. now rewrite committed_render_fault. }
  split; [exact Hm|]. split; [now rewrite committed_session|]. split.
  - intros s Hr. induction Hr as [s H|s e _ IH]; [|exact IH].
    rewrite Hm in H. discriminate.
  - intros [imports first scoped].
    unfold render_fault, imports_all, body_steps.
    cbn [react_imports handleSearch_declared_first block_scoped forallb].
    destruct first; cbn [state_steps callback_steps effect_steps app first_fault
                         react_imports block_scoped];
      destruct (existsb (Hook_eqb useState) imports),
               (existsb (Hook_eqb useRef) imports),
               (existsb (Hook_eqb useEffect) imports),
               (existsb (Hook_eqb useCallback) imports),
               scoped; simpl;
      (split;
       [ intros H;
         first [ discriminate H
               | split; [ reflexivity
                        | intros H'; first [ reflexivity | discriminate H' ] ] ]
       | intros (H1 & H2);
         first [ discriminate H1 | reflexivity
               | specialize (H2 eq_refl); discriminate H2 ] ]).
Qed.

(** X23: React stops a presenter whose [error] went from falsy to truthy
    or back since its last render, the early [return] of line 77 standing
    before the hook of line 88; a first render, and a render after one
    with an [error] of the same truthiness, go through. *)
Theorem presenter_stops_when_error_flips (T F : Type)
    (cfg : CustomScrollView.ResponsiveConfig) (top : bool)
    (q p : CustomScrollView.Props T F) :
  (CustomScrollView.rerender cfg top (Some q) p =
     CustomScrollView.ThrowsHookOrder T F <->
   truthy_opt (CustomScrollView.error q) <>
   truthy_opt (CustomScrollView.error p)) /\
  (CustomScrollView.rerender cfg top (Some q) p =
     CustomScrollView.Renders (CustomScrollView.render cfg top p) <->
   truthy_opt (CustomScrollView.error q) =
   truthy_opt (CustomScrollView.error p)) /\
  CustomScrollView.rerender cfg top None p =
    CustomScrollView.Renders (CustomScrollView.render cfg top p).
Proof.
  unfold CustomScrollView.rerender.
  rewrite (hooks_run_length q), (hooks_run_length p).
  destruct (truthy_opt (CustomScrollView.error q)),
           (truthy_opt (CustomScrollView.error p)); simpl;
    repeat split; try discriminate; try congruence; try reflexivity.
Qed.
